(** * pc.Material (src/scene/scene_material.js)

    A shallow embedding of the material class of the engine's scene layer:
    the render-state record, the derived [blendType] property, the parameter
    table and the operations that reach mesh instances and the device scope.

    JavaScript values are modelled by the inductive type [value]; the
    material is a record that every method receives as [this] and returns;
    everything a method touches outside the material (the module-level id
    counter, the [_shader] slot of mesh instances, calls into external
    collaborators) lives in a [World] that is threaded through a small state
    monad. *)

From Stdlib Require Import ZArith List String Ascii Lia.
From stdpp Require Import base tactics option list strings pretty functions gmap.

Open Scope Z_scope.

(** ** JavaScript values *)

(** Numbers are the integers that a double holds; an array is the list of
    its elements (no holes); a plain object is the list of its own
    properties, the first binding of a name being the live one.  Functions
    and objects with a user-defined prototype are outside the model. *)
#[warnings="-register-all"]
Inductive value : Type :=
  | VUndefined
  | VNull
  | VBool (b : bool)
  | VNum (n : Z)
  | VStr (s : string)
  | VArr (elems : list value)
  | VObj (props : list (string * value)).

(** Errors a method can throw. *)
Inductive error : Type :=
  | TypeError.

Module JS.

(** [ToBoolean]. *)
Definition truthy (v : value) : bool :=
  match v with
  | VUndefined | VNull => false
  | VBool b => b
  | VNum n => negb (n =? 0)
  | VStr s => negb (String.eqb s "")
  | VArr _ | VObj _ => true
  end.

(** The double nearest to the natural number [a], ties going to the even
    mantissa; [None] when [a] is beyond the range of the doubles. *)
Definition nearest_double (a : Z) : option Z :=
  if a <? 2 ^ 53 then Some a
  else
    let e := Z.log2 a - 52 in
    let q := a / 2 ^ e in
    let r := a - q * 2 ^ e in
    let half := 2 ^ (e - 1) in
    let q' := if (half <? r) || ((r =? half) && Z.odd q) then q + 1 else q in
    if q' * 2 ^ e <? 2 ^ 1024 then Some (q' * 2 ^ e) else None.

(** The decimal [c] reads as the double [a]. *)
Definition reads_as (a c : Z) : bool :=
  match nearest_double c with
  | Some b => b =? a
  | None => false
  end.

(** The decimal with the fewest significant digits that reads as the double
    [a], the closest one to [a] when there are several; [k] is the number
    of digits of [a] and [d] the number of significant digits tried. *)
Fixpoint shortest_decimal (a : Z) (k d fuel : nat) : Z :=
  match fuel with
  | O => a
  | S fuel' =>
      let scale := 10 ^ Z.of_nat (k - d) in
      let lo := a / scale * scale in
      let hi := lo + scale in
      match reads_as a lo, reads_as a hi with
      | true, true =>
          if a - lo <? hi - a then lo
          else if hi - a <? a - lo then hi
          else if Z.even (lo / scale) then lo else hi
      | true, false => lo
      | false, true => hi
      | false, false => shortest_decimal a k (S d) fuel'
      end
  end.

Fixpoint strip_zeros (s : list ascii) : list ascii :=
  match s with
  | "0"%char :: s' => strip_zeros s'
  | _ => s
  end.

(** The digits of a decimal without its trailing zeros. *)
Definition significant (t : string) : string :=
  string_of_list_ascii (rev (strip_zeros (rev (list_ascii_of_string t)))).

(** [Number::toString] on a natural number: the shortest decimal that
    reads as the number, written out when it has at most 21 digits and with
    an exponent otherwise.  Below 2^53 this is the number in decimal. *)
Definition natural_to_string (a : Z) : string :=
  match nearest_double a with
  | None => "Infinity"
  | Some b =>
      let c := shortest_decimal b (String.length (pretty b)) 1 17 in
      let t := pretty c in
      let n := String.length t in
      if (n <=? 21)%nat then t
      else
        match significant t with
        | String c1 EmptyString => String c1 ("e+" +:+ pretty (n - 1)%nat)
        | String c1 rest =>
            String c1 ("." +:+ rest +:+ "e+" +:+ pretty (n - 1)%nat)
        | EmptyString => t
        end
  end.

Definition number_to_string (n : Z) : string :=
  if n <? 0 then "-" +:+ natural_to_string (- n) else natural_to_string n.

(** [ToString]; inside an array [undefined] and [null] print as the empty
    string and the elements are joined by commas. *)
Fixpoint to_string (v : value) : string :=
  match v with
  | VUndefined => "undefined"
  | VNull => "null"
  | VBool true => "true"
  | VBool false => "false"
  | VNum n => number_to_string n
  | VStr s => s
  | VArr l =>
      let elt (x : value) : string :=
        match x with
        | VUndefined | VNull => ""
        | _ => to_string x
        end in
      (fix join (l : list value) : string :=
         match l with
         | [] => ""
         | x :: l' =>
             match l' with
             | [] => elt x
             | _ :: _ => elt x +:+ "," +:+ join l'
             end
         end) l
  | VObj _ => "[object Object]"
  end.

Definition digit_of (c : ascii) : option Z :=
  let n := Z.of_nat (nat_of_ascii c) in
  if (48 <=? n) && (n <=? 57) then Some (n - 48) else None.

Fixpoint digits_to_number (acc : Z) (s : string) : option Z :=
  match s with
  | EmptyString => Some acc
  | String c s' =>
      match digit_of c with
      | Some d => digits_to_number (10 * acc + d) s'
      | None => None
      end
  end.

(** [ToNumber] on strings, [None] standing for NaN.  The empty string is 0
    and a decimal integer literal, optionally signed, is its value.  The
    other numeric literal forms (surrounding white space, hexadecimal,
    fractions, exponents, Infinity) have no integer reading in this model
    and are treated like NaN. *)
Definition string_to_number (s : string) : option Z :=
  match s with
  | EmptyString => Some 0
  | String "-" (String c s') => Z.opp <$> digits_to_number 0 (String c s')
  | String "+" (String c s') => digits_to_number 0 (String c s')
  | String c s' => digits_to_number 0 (String c s')
  end.

(** [ToNumber], [None] standing for NaN. *)
Definition to_number (v : value) : option Z :=
  match v with
  | VUndefined => None
  | VNull => Some 0
  | VBool b => Some (if b then 1 else 0)
  | VNum n => Some n
  | VStr s => string_to_number s
  | VArr _ => string_to_number (to_string v)
  | VObj _ => None
  end.

(** Lookup of an own property of a plain object. *)
Fixpoint own_prop (props : list (string * value)) (p : string) : value :=
  match props with
  | [] => VUndefined
  | (k, v) :: props' => if String.eqb k p then v else own_prop props' p
  end.

(** [v.p] for a property name [p] that no prototype of the model defines
    (the methods below read [length], [name] and [value] only).  Reading a
    property of [undefined] or [null] throws a TypeError: [None]. *)
Definition get_prop (v : value) (p : string) : option value :=
  match v with
  | VUndefined | VNull => None
  | VBool _ | VNum _ => Some VUndefined
  | VStr s =>
      Some (if String.eqb p "length"
            then VNum (Z.of_nat (String.length s)) else VUndefined)
  | VArr l =>
      Some (if String.eqb p "length"
            then VNum (Z.of_nat (List.length l)) else VUndefined)
  | VObj props => Some (own_prop props p)
  end.

(** [v[i]] for an index [i], on a value that is not [undefined] or
    [null].  A string yields the one-character string at [i]. *)
Definition get_index (v : value) (i : nat) : value :=
  match v with
  | VStr s =>
      match String.get i s with
      | Some c => VStr (String c EmptyString)
      | None => VUndefined
      end
  | VArr l => nth i l VUndefined
  | VObj props => own_prop props (pretty i)
  | _ => VUndefined
  end.

(** [v === c] for a number [c]. *)
Definition strict_eq_num (v : value) (c : Z) : bool :=
  match v with
  | VNum n => n =? c
  | _ => false
  end.

(** [v === undefined]. *)
Definition is_undefined (v : value) : bool :=
  match v with
  | VUndefined => true
  | _ => false
  end.

(** The property names that every plain object inherits from
    [Object.prototype], as the language defines it: the methods below run
    in a program that has not added members of its own to it. *)
Definition Object_prototype_members : list string :=
  ["constructor"; "hasOwnProperty"; "isPrototypeOf"; "propertyIsEnumerable";
   "toLocaleString"; "toString"; "valueOf"; "__proto__";
   "__defineGetter__"; "__defineSetter__"; "__lookupGetter__";
   "__lookupSetter__"]%string.

Definition inherited (key : string) : bool :=
  bool_decide (key ∈ Object_prototype_members).

(** Number of times the body of [for (i = 0; i < len; i++)] runs. *)
Definition loop_count (len : value) : nat :=
  match to_number len with
  | Some n => Z.to_nat n
  | None => 0%nat
  end.

End JS.

(** ** Engine constants

    The [pc.BLEND_*], [pc.BLENDMODE_*], [pc.BLENDEQUATION_*] and
    [pc.CULLFACE_*] numbers are declared elsewhere in the engine; the
    material only names them, so the model takes them as a parameter. *)
Record Constants : Type := {
  BLEND_NONE : Z;
  BLEND_NORMAL : Z;
  BLEND_PREMULTIPLIED : Z;
  BLEND_ADDITIVE : Z;
  BLEND_ADDITIVEALPHA : Z;
  BLEND_MULTIPLICATIVE : Z;
  BLENDMODE_ZERO : Z;
  BLENDMODE_ONE : Z;
  BLENDMODE_DST_COLOR : Z;
  BLENDMODE_SRC_ALPHA : Z;
  BLENDMODE_ONE_MINUS_SRC_ALPHA : Z;
  BLENDEQUATION_ADD : Z;
  CULLFACE_BACK : Z
}.

(** The constants number distinct presets and distinct blend factors. *)
Definition presets_distinct (pc : Constants) : Prop :=
  NoDup [BLEND_NONE pc; BLEND_NORMAL pc; BLEND_PREMULTIPLIED pc;
         BLEND_ADDITIVE pc; BLEND_ADDITIVEALPHA pc; BLEND_MULTIPLICATIVE pc].

Definition blendmodes_distinct (pc : Constants) : Prop :=
  NoDup [BLENDMODE_ZERO pc; BLENDMODE_ONE pc; BLENDMODE_DST_COLOR pc;
         BLENDMODE_SRC_ALPHA pc; BLENDMODE_ONE_MINUS_SRC_ALPHA pc].

(** One concrete numbering, used to run the model. *)
Definition sample_constants : Constants := {|
  BLEND_NONE := 3;
  BLEND_NORMAL := 2;
  BLEND_PREMULTIPLIED := 4;
  BLEND_ADDITIVE := 1;
  BLEND_ADDITIVEALPHA := 6;
  BLEND_MULTIPLICATIVE := 5;
  BLENDMODE_ZERO := 0;
  BLENDMODE_ONE := 1;
  BLENDMODE_DST_COLOR := 4;
  BLENDMODE_SRC_ALPHA := 6;
  BLENDMODE_ONE_MINUS_SRC_ALPHA := 8;
  BLENDEQUATION_ADD := 0;
  CULLFACE_BACK := 1
|}.

(** ** Objects the material refers to *)

(** Mesh instances, shaders and scope ids (the binding handles of the
    device scope) are objects of other modules: the material holds
    references to them, and two references are the same object exactly when
    they are equal. *)
Definition mesh_ref : Type := nat.
Definition shader_ref : Type := nat.
Definition ScopeId : Type := nat.

(** An entry of the parameter table: [{ scopeId: ..., data: ... }], the
    scope id being [null] until it is resolved. *)
Record ParamRecord : Type := {
  scopeId : option ScopeId;
  data : value
}.

(** What [this.parameters[name]] finds: a record of the table, or the
    member of [Object.prototype] of that name when the table has no record
    there. *)
Inductive Lookup : Type :=
  | Own (param : ParamRecord)
  | FromPrototype (key : string).

(** The fields the constructor assigns.  [variants] and [parameters] are
    objects used as maps: they are modelled by the finite map of their own
    properties, the members they inherit from [Object.prototype] being
    added where a method reads the table by name; the order in which
    [for ... in] enumerates the own properties is left open.
    [blend] and the write masks hold booleans, the blend factors, the
    equation and [cull] hold the engine's numeric constants. *)
Record Material : Type := {
  name : string;
  id : Z;
  shader : option shader_ref;
  variants : gmap string shader_ref;
  parameters : gmap string ParamRecord;
  alphaTest : value;
  blend : bool;
  blendSrc : Z;
  blendDst : Z;
  blendEquation : Z;
  cull : Z;
  depthTest : bool;
  depthWrite : bool;
  redWrite : bool;
  greenWrite : bool;
  blueWrite : bool;
  alphaWrite : bool;
  meshInstances : list mesh_ref
}.

(** Calls into the collaborators, in the order they are made. *)
Inductive Event : Type :=
  | EvUpdateKey (mi : mesh_ref)
  | EvResolve (paramName : string)
  | EvSetValue (sid : ScopeId) (v : value).

(** What the methods reach outside the material: the closure variable [id],
    the [_shader] slot of every mesh instance, the global [i] that
    [clearVariants] assigns without declaring it, and the trace of calls. *)
Record World : Type := {
  next_id : Z;
  mesh_shader : mesh_ref -> option shader_ref;
  global_i : value;
  trace : list Event
}.

(** ** The state monad of the methods *)

Definition St (A : Type) : Type := World -> A * World.

Definition ret {A : Type} (a : A) : St A := fun w => (a, w).

Definition bind {A B : Type} (c : St A) (k : A -> St B) : St B :=
  fun w => let (a, w') := c w in k a w'.

Notation "'let*' x := c 'in' k" := (bind c (fun x => k))
  (at level 10, x name, c at level 100, k at level 200).
Notation "c ;; k" := (bind c (fun _ => k))
  (at level 100, k at level 200, right associativity).

Definition emit (e : Event) : St unit :=
  fun w => (tt, {| next_id := next_id w; mesh_shader := mesh_shader w;
                   global_i := global_i w; trace := trace w ++ [e] |}).

(** [id++] *)
Definition fresh_id : St Z :=
  fun w => (next_id w, {| next_id := next_id w + 1; mesh_shader := mesh_shader w;
                          global_i := global_i w; trace := trace w |}).

(** [mi._shader = s] *)
Definition set_mesh_shader (mi : mesh_ref) (s : option shader_ref) : St unit :=
  fun w => (tt, {| next_id := next_id w; mesh_shader := <[mi := s]> (mesh_shader w);
                   global_i := global_i w; trace := trace w |}).

(** [i = v] on the undeclared [i] *)
Definition set_global_i (v : value) : St unit :=
  fun w => (tt, {| next_id := next_id w; mesh_shader := mesh_shader w;
                   global_i := v; trace := trace w |}).

(** A [for] loop over the entries of an array. *)
Fixpoint for_each {A : Type} (body : A -> St unit) (l : list A) : St unit :=
  match l with
  | [] => ret tt
  | x :: l' => body x ;; for_each body l'
  end.

(** A loop whose body updates the material it runs on. *)
Fixpoint for_each_on {A : Type} (body : A -> Material -> St Material)
    (l : list A) (this : Material) : St Material :=
  match l with
  | [] => ret this
  | x :: l' => let* this' := body x this in for_each_on body l' this'
  end.

(** ** Field assignments [this.f = x] *)

Definition set_variants (x : gmap string shader_ref) (this : Material) : Material :=
  {| name := name this; id := id this; shader := shader this; variants := x;
     parameters := parameters this; alphaTest := alphaTest this;
     blend := blend this; blendSrc := blendSrc this;
     blendDst := blendDst this; blendEquation := blendEquation this;
     cull := cull this; depthTest := depthTest this;
     depthWrite := depthWrite this; redWrite := redWrite this;
     greenWrite := greenWrite this; blueWrite := blueWrite this;
     alphaWrite := alphaWrite this; meshInstances := meshInstances this |}.

Definition set_parameters (x : gmap string ParamRecord) (this : Material) : Material :=
  {| name := name this; id := id this; shader := shader this;
     variants := variants this; parameters := x;
     alphaTest := alphaTest this; blend := blend this;
     blendSrc := blendSrc this; blendDst := blendDst this;
     blendEquation := blendEquation this; cull := cull this;
     depthTest := depthTest this; depthWrite := depthWrite this;
     redWrite := redWrite this; greenWrite := greenWrite this;
     blueWrite := blueWrite this; alphaWrite := alphaWrite this;
     meshInstances := meshInstances this |}.

Definition set_blend (x : bool) (this : Material) : Material :=
  {| name := name this; id := id this; shader := shader this;
     variants := variants this; parameters := parameters this;
     alphaTest := alphaTest this; blend := x; blendSrc := blendSrc this;
     blendDst := blendDst this; blendEquation := blendEquation this;
     cull := cull this; depthTest := depthTest this;
     depthWrite := depthWrite this; redWrite := redWrite this;
     greenWrite := greenWrite this; blueWrite := blueWrite this;
     alphaWrite := alphaWrite this; meshInstances := meshInstances this |}.

Definition set_blendSrc (x : Z) (this : Material) : Material :=
  {| name := name this; id := id this; shader := shader this;
     variants := variants this; parameters := parameters this;
     alphaTest := alphaTest this; blend := blend this; blendSrc := x;
     blendDst := blendDst this; blendEquation := blendEquation this;
     cull := cull this; depthTest := depthTest this;
     depthWrite := depthWrite this; redWrite := redWrite this;
     greenWrite := greenWrite this; blueWrite := blueWrite this;
     alphaWrite := alphaWrite this; meshInstances := meshInstances this |}.

Definition set_blendDst (x : Z) (this : Material) : Material :=
  {| name := name this; id := id this; shader := shader this;
     variants := variants this; parameters := parameters this;
     alphaTest := alphaTest this; blend := blend this;
     blendSrc := blendSrc this; blendDst := x;
     blendEquation := blendEquation this; cull := cull this;
     depthTest := depthTest this; depthWrite := depthWrite this;
     redWrite := redWrite this; greenWrite := greenWrite this;
     blueWrite := blueWrite this; alphaWrite := alphaWrite this;
     meshInstances := meshInstances this |}.

Definition set_blendEquation (x : Z) (this : Material) : Material :=
  {| name := name this; id := id this; shader := shader this;
     variants := variants this; parameters := parameters this;
     alphaTest := alphaTest this; blend := blend this;
     blendSrc := blendSrc this; blendDst := blendDst this;
     blendEquation := x; cull := cull this; depthTest := depthTest this;
     depthWrite := depthWrite this; redWrite := redWrite this;
     greenWrite := greenWrite this; blueWrite := blueWrite this;
     alphaWrite := alphaWrite this; meshInstances := meshInstances this |}.

(** ** The methods of [pc.Material] *)

(** Result of a method that can throw: the material is returned in both
    cases, since the assignments made before a throw stay. *)
Inductive outcome : Type :=
  | Returned (this : Material)
  | Threw (e : error) (this : Material).

Section Methods.

Variable pc : Constants.

(** [device.scope.resolve], the binding-name resolver of the device. *)
Variable resolve : string -> ScopeId.

(** [new pc.Material()] *)
Definition Material_new : St Material :=
  let* i := fresh_id in
  ret {| name := "Untitled"; id := i; shader := None; variants := ∅;
         parameters := ∅;
         alphaTest := VNum 0;
         blend := false;
         blendSrc := BLENDMODE_ONE pc;
         blendDst := BLENDMODE_ZERO pc;
         blendEquation := BLENDEQUATION_ADD pc;
         cull := CULLFACE_BACK pc;
         depthTest := true; depthWrite := true;
         redWrite := true; greenWrite := true; blueWrite := true;
         alphaWrite := true;
         meshInstances := [] |}.

(** The getter of [blendType]. *)
Definition blendType_get (this : Material) : Z :=
  if negb (blend this) &&
     (blendSrc this =? BLENDMODE_ONE pc) &&
     (blendDst this =? BLENDMODE_ZERO pc) &&
     (blendEquation this =? BLENDEQUATION_ADD pc) then
    BLEND_NONE pc
  else if blend this &&
          (blendSrc this =? BLENDMODE_SRC_ALPHA pc) &&
          (blendDst this =? BLENDMODE_ONE_MINUS_SRC_ALPHA pc) &&
          (blendEquation this =? BLENDEQUATION_ADD pc) then
    BLEND_NORMAL pc
  else if blend this &&
          (blendSrc this =? BLENDMODE_ONE pc) &&
          (blendDst this =? BLENDMODE_ONE pc) &&
          (blendEquation this =? BLENDEQUATION_ADD pc) then
    BLEND_ADDITIVE pc
  else if blend this &&
          (blendSrc this =? BLENDMODE_SRC_ALPHA pc) &&
          (blendDst this =? BLENDMODE_ONE pc) &&
          (blendEquation this =? BLENDEQUATION_ADD pc) then
    BLEND_ADDITIVEALPHA pc
  else if blend this &&
          (blendSrc this =? BLENDMODE_DST_COLOR pc) &&
          (blendDst this =? BLENDMODE_ZERO pc) &&
          (blendEquation this =? BLENDEQUATION_ADD pc) then
    BLEND_MULTIPLICATIVE pc
  else if blend this &&
          (blendSrc this =? BLENDMODE_ONE pc) &&
          (blendDst this =? BLENDMODE_ONE_MINUS_SRC_ALPHA pc) &&
          (blendEquation this =? BLENDEQUATION_ADD pc) then
    BLEND_PREMULTIPLIED pc
  else
    BLEND_NORMAL pc.

(** [mi.updateKey()], a method of the mesh instance. *)
Definition MeshInstance_updateKey (mi : mesh_ref) : St unit :=
  emit (EvUpdateKey mi).

Definition _updateMeshInstanceKeys (this : Material) : St unit :=
  for_each MeshInstance_updateKey (meshInstances this).

(** The four assignments of one [case] of the setter. *)
Definition assign_blend (b : bool) (src dst eqn : Z) (this : Material) : Material :=
  let this := set_blend b this in
  let this := set_blendSrc src this in
  let this := set_blendDst dst this in
  set_blendEquation eqn this.

(** The [switch] of the setter of [blendType]. *)
Definition blendType_switch (type : value) (this : Material) : Material :=
  if JS.strict_eq_num type (BLEND_NONE pc) then
    assign_blend false (BLENDMODE_ONE pc) (BLENDMODE_ZERO pc)
      (BLENDEQUATION_ADD pc) this
  else if JS.strict_eq_num type (BLEND_NORMAL pc) then
    assign_blend true (BLENDMODE_SRC_ALPHA pc)
      (BLENDMODE_ONE_MINUS_SRC_ALPHA pc) (BLENDEQUATION_ADD pc) this
  else if JS.strict_eq_num type (BLEND_PREMULTIPLIED pc) then
    assign_blend true (BLENDMODE_ONE pc)
      (BLENDMODE_ONE_MINUS_SRC_ALPHA pc) (BLENDEQUATION_ADD pc) this
  else if JS.strict_eq_num type (BLEND_ADDITIVE pc) then
    assign_blend true (BLENDMODE_ONE pc) (BLENDMODE_ONE pc)
      (BLENDEQUATION_ADD pc) this
  else if JS.strict_eq_num type (BLEND_ADDITIVEALPHA pc) then
    assign_blend true (BLENDMODE_SRC_ALPHA pc) (BLENDMODE_ONE pc)
      (BLENDEQUATION_ADD pc) this
  else if JS.strict_eq_num type (BLEND_MULTIPLICATIVE pc) then
    assign_blend true (BLENDMODE_DST_COLOR pc) (BLENDMODE_ZERO pc)
      (BLENDEQUATION_ADD pc) this
  else
    this.

(** The setter of [blendType]. *)
Definition blendType_set (type : value) (this : Material) : St Material :=
  let this := blendType_switch type this in
  _updateMeshInstanceKeys this ;;
  ret this.

(** [_cloneInternal] assigns every field of [clone], so the material it
    leaves is built from [this] and the counter alone. *)
Definition _cloneInternal (this clone : Material) : St Material :=
  let* i := fresh_id in
  ret {| name := name this; id := i; shader := None; variants := ∅;
         parameters := ∅;
         alphaTest := alphaTest this;
         blend := blend this;
         blendSrc := blendSrc this;
         blendDst := blendDst this;
         blendEquation := blendEquation this;
         cull := cull this;
         depthTest := depthTest this; depthWrite := depthWrite this;
         redWrite := redWrite this; greenWrite := greenWrite this;
         blueWrite := blueWrite this; alphaWrite := alphaWrite this;
         meshInstances := [] |}.

Definition clone (this : Material) : St Material :=
  let* clone := Material_new in
  _cloneInternal this clone.

Definition clearParameters (this : Material) : Material :=
  set_parameters ∅ this.

Definition getParameters (this : Material) : gmap string ParamRecord :=
  parameters this.

(** The loop counter [i] is not declared in [clearVariants]: it is the
    global [i], left at the length of the list. *)
Definition clearVariants (this : Material) : St Material :=
  let this := set_variants ∅ this in
  set_global_i (VNum 0) ;;
  for_each (fun mi => set_mesh_shader mi None) (meshInstances this) ;;
  set_global_i (VNum (Z.of_nat (length (meshInstances this)))) ;;
  ret this.

(** [this.parameters[key]]: an own property hides an inherited one;
    [None] is [undefined]. *)
Definition lookup_parameter (this : Material) (key : string) : option Lookup :=
  match parameters this !! key with
  | Some param => Some (Own param)
  | None => if JS.inherited key then Some (FromPrototype key) else None
  end.

(** [this.parameters[name]]: the property key is [ToString name]. *)
Definition getParameter (this : Material) (name : value) : option Lookup :=
  lookup_parameter this (JS.to_string name).

(** The last statements of [setParameter], from [var param] on.  What
    the lookup finds is an object in both cases, hence truthy, and
    [param.data = data] is run on it: on a record of the table, or on the
    inherited member, which is no part of the material (the model does not
    follow that write).  A record is inserted only when the lookup finds
    nothing. *)
Definition store_parameter (name data : value) (this : Material) : Material :=
  let key := JS.to_string name in
  match lookup_parameter this key with
  | Some (Own param) =>
      set_parameters
        (<[key := {| scopeId := scopeId param; data := data |}]>
           (parameters this)) this
  | Some (FromPrototype _) => this
  | None =>
      set_parameters
        (<[key := {| scopeId := None; data := data |}]> (parameters this))
        this
  end.

(** The [for] loop of [setParameter]: [n] iterations are left and the
    next index is [i]; a call that throws or does not return ends it. *)
Fixpoint setParameter_loop (call : Material -> value -> option outcome)
    (uniformObject : value) (n i : nat) (this : Material) : option outcome :=
  match n with
  | O => Some (Returned this)
  | S n' =>
      match call this (JS.get_index uniformObject i) with
      | Some (Returned this') =>
          setParameter_loop call uniformObject n' (S i) this'
      | Some (Threw e this') => Some (Threw e this')
      | None => None
      end
  end.

(** [setParameter(arg, data)].  The method calls itself; [fuel] bounds
    the depth of the calls and [None] means that the bound was reached. *)
Fixpoint setParameter (fuel : nat) (this : Material) (arg data : value)
    : option outcome :=
  match fuel with
  | O => None
  | S fuel' =>
      if JS.is_undefined data then
        let uniformObject := arg in
        match JS.get_prop uniformObject "length" with
        | None => Some (Threw TypeError this)
        | Some len =>
            if JS.truthy len then
              setParameter_loop
                (fun this elem => setParameter fuel' this elem VUndefined)
                uniformObject (JS.loop_count len) 0 this
            else
              match JS.get_prop uniformObject "name",
                    JS.get_prop uniformObject "value" with
              | Some name, Some data =>
                  Some (Returned (store_parameter name data this))
              | _, _ => Some (Threw TypeError this)
              end
        end
      else
        Some (Returned (store_parameter arg data this))
  end.

(** [deleteParameter(name)]: [delete] removes an own property and does
    nothing when the lookup found an inherited member. *)
Definition deleteParameter (this : Material) (name : value) : Material :=
  match lookup_parameter this (JS.to_string name) with
  | Some _ => set_parameters (delete (JS.to_string name) (parameters this)) this
  | None => this
  end.

(** The body of the loop of [setParameters] at the entry [paramName],
    whose record is [parameter]. *)
Definition setParameters_body (entry : string * ParamRecord)
    (this : Material) : St Material :=
  let (paramName, parameter) := entry in
  let* sid :=
    match scopeId parameter with
    | Some sid => ret sid
    | None => emit (EvResolve paramName) ;; ret (resolve paramName)
    end in
  emit (EvSetValue sid (data parameter)) ;;
  ret (set_parameters
         (<[paramName := {| scopeId := Some sid; data := data parameter |}]>
            (parameters this)) this).

(** [setParameters()]: the [for ... in] loop visits the entries the table
    has when the loop starts, in the order of the enumeration; its body
    writes to the record it visits only, so that the record read at a name
    is the one enumerated. *)
Definition setParameters (this : Material) : St Material :=
  for_each_on setParameters_body (map_to_list (parameters this)) this.

End Methods.

(** ** The table of presets, as the specification gives it *)

Inductive preset : Type :=
  | NONE | NORMAL | PREMULTIPLIED | ADDITIVE | ADDITIVEALPHA | MULTIPLICATIVE.

#[global] Instance preset_eq_dec : EqDecision preset.
Proof. solve_decision. Defined.

(** The constant that names a preset. *)
Definition preset_code (pc : Constants) (p : preset) : Z :=
  match p with
  | NONE => BLEND_NONE pc
  | NORMAL => BLEND_NORMAL pc
  | PREMULTIPLIED => BLEND_PREMULTIPLIED pc
  | ADDITIVE => BLEND_ADDITIVE pc
  | ADDITIVEALPHA => BLEND_ADDITIVEALPHA pc
  | MULTIPLICATIVE => BLEND_MULTIPLICATIVE pc
  end.

(** The row of a preset in the table of the specification:
    enabled, src, dst, equation. *)
Definition spec_row (pc : Constants) (p : preset) : bool * Z * Z * Z :=
  match p with
  | NONE => (false, BLENDMODE_ONE pc, BLENDMODE_ZERO pc, BLENDEQUATION_ADD pc)
  | NORMAL =>
      (true, BLENDMODE_SRC_ALPHA pc, BLENDMODE_ONE_MINUS_SRC_ALPHA pc,
       BLENDEQUATION_ADD pc)
  | PREMULTIPLIED =>
      (true, BLENDMODE_ONE pc, BLENDMODE_ONE_MINUS_SRC_ALPHA pc,
       BLENDEQUATION_ADD pc)
  | ADDITIVE => (true, BLENDMODE_ONE pc, BLENDMODE_ONE pc, BLENDEQUATION_ADD pc)
  | ADDITIVEALPHA =>
      (true, BLENDMODE_SRC_ALPHA pc, BLENDMODE_ONE pc, BLENDEQUATION_ADD pc)
  | MULTIPLICATIVE =>
      (true, BLENDMODE_DST_COLOR pc, BLENDMODE_ZERO pc, BLENDEQUATION_ADD pc)
  end.

(** The four raw blend fields of a material. *)
Definition quadruple (this : Material) : bool * Z * Z * Z :=
  (blend this, blendSrc this, blendDst this, blendEquation this).

(** Two materials that agree on every field but the four blend fields. *)
Definition same_outside_blend (m m' : Material) : Prop :=
  name m' = name m /\ id m' = id m /\ shader m' = shader m /\
  variants m' = variants m /\ parameters m' = parameters m /\
  alphaTest m' = alphaTest m /\ cull m' = cull m /\
  depthTest m' = depthTest m /\ depthWrite m' = depthWrite m /\
  redWrite m' = redWrite m /\ greenWrite m' = greenWrite m /\
  blueWrite m' = blueWrite m /\ alphaWrite m' = alphaWrite m /\
  meshInstances m' = meshInstances m.

(** The mesh instances on which a sequence of calls invokes [updateKey],
    in the order of the calls. *)
Definition updateKey_targets (es : list Event) : list mesh_ref :=
  omap (fun e => match e with EvUpdateKey mi => Some mi | _ => None end) es.

(** The names a sequence of calls resolves, in the order of the calls. *)
Definition resolved_names (es : list Event) : list string :=
  omap (fun e => match e with EvResolve n => Some n | _ => None end) es.

(** A world to run the model in: no id issued, no shader cached. *)
Definition initial_world : World :=
  {| next_id := 0; mesh_shader := fun _ => None; global_i := VUndefined;
     trace := [] |}.

(** The scope id an entry is pushed through: the one its record holds, or
    the one the resolver gives for its name when the record holds null. *)
Definition handle_of (resolve : string -> ScopeId) (k : string) (p : ParamRecord)
    : ScopeId :=
  default (resolve k) (scopeId p).

(** The record of an entry once it was pushed. *)
Definition pushed (resolve : string -> ScopeId) (k : string) (p : ParamRecord)
    : ParamRecord :=
  {| scopeId := Some (handle_of resolve k p); data := data p |}.

(** The calls that pushing one entry makes. *)
Definition entry_events (resolve : string -> ScopeId) (e : string * ParamRecord)
    : list Event :=
  match scopeId e.2 with
  | Some _ => []
  | None => [EvResolve e.1]
  end ++ [EvSetValue (handle_of resolve e.1 e.2) (data e.2)].

(** The calls a method made: the part of the trace after [w]. *)
Definition calls_since (w w' : World) : list Event :=
  drop (length (trace w)) (trace w').

(** A uniform object [{ name: ..., value: ... }]: a plain object without a
    truthy [length]. *)
Definition is_uniform (e : value) : Prop :=
  exists props, e = VObj props /\ JS.truthy (JS.own_prop props "length") = false.

(** What [setParameter] stores for a uniform object. *)
Definition store_uniform (this : Material) (e : value) : Material :=
  match e with
  | VObj props =>
      store_parameter (JS.own_prop props "name") (JS.own_prop props "value") this
  | _ => this
  end.

(** The nesting depth of a value. *)
Fixpoint depth (v : value) : nat :=
  match v with
  | VArr l => S (foldr (fun x n => Nat.max (depth x) n) 0%nat l)
  | VObj props => S (foldr (fun kv n => Nat.max (depth kv.2) n) 0%nat props)
  | _ => 0%nat
  end.

(** No element that the loop of [setParameter] can reach, at any depth, is
    a non-empty string: the elements of arrays and the properties of the
    plain objects that have a truthy [length]. *)
Fixpoint loop_safe (v : value) : bool :=
  match v with
  | VStr s => String.eqb s ""
  | VArr l => forallb loop_safe l
  | VObj props =>
      if JS.truthy (JS.own_prop props "length")
      then forallb (fun kv => loop_safe kv.2) props
      else true
  | _ => true
  end.

(** The uniform object [{ name: n, value: v }]. *)
Definition uniform_of (nv : value * value) : value :=
  VObj [("name"%string, nv.1); ("value"%string, nv.2)].

(** An entry of a sequence given by the string that names it and its
    value. *)
Definition named (nv : string * value) : value * value := (VStr nv.1, nv.2).

(** The values a sequence of calls sets, with the scope ids they are set
    on, in the order of the calls. *)
Definition setValue_calls (es : list Event) : list (ScopeId * value) :=
  omap (fun e => match e with EvSetValue sid v => Some (sid, v) | _ => None end) es.

(** The materials [ms] carry distinct ids, all issued by the counter. *)
Definition ids_fresh (w : World) (ms : list Material) : Prop :=
  NoDup (id <$> ms) /\ Forall (fun m => id m < next_id w) ms.

(** The material a call leaves, however it ends. *)
Definition outcome_material (o : outcome) : Material :=
  match o with
  | Returned this => this
  | Threw _ this => this
  end.

(** A material in a configuration that is not the default one, attached
    to two mesh instances, with one resolved and one unresolved parameter. *)
Definition sample_material : Material :=
  {| name := "glass"; id := 7; shader := Some 2%nat;
     variants := {["lit" := 4%nat]};
     parameters :=
       {["opacity" := {| scopeId := Some 11%nat; data := VNum 1 |};
         "tint" := {| scopeId := None; data := VArr [VNum 1; VNum 0; VNum 0] |}]};
     alphaTest := VNum 1;
     blend := true; blendSrc := 0; blendDst := 0; blendEquation := 0;
     cull := 2;
     depthTest := false; depthWrite := true;
     redWrite := true; greenWrite := false; blueWrite := true;
     alphaWrite := false;
     meshInstances := [3%nat; 5%nat] |}.

(** A world in which eight ids were issued and mesh instance 3 caches a
    shader. *)
Definition sample_world : World :=
  {| next_id := 8; mesh_shader := <[3%nat := Some 2%nat]> (fun _ => None);
     global_i := VUndefined; trace := [] |}.

(** ** Properties of the blend type *)

Section BlendType.

Variable pc : Constants.

Lemma presets_distinct_neq :
  presets_distinct pc ->
  forall p q : preset, p <> q -> preset_code pc p <> preset_code pc q.
Proof.
  unfold presets_distinct. rewrite !NoDup_cons, !not_elem_of_cons.
  intros H p q Hpq. destruct_and!.
  destruct p, q; simpl; congruence.
Qed.

Lemma strict_eq_num_code (p q : preset) :
  presets_distinct pc ->
  JS.strict_eq_num (VNum (preset_code pc p)) (preset_code pc q)
  = bool_decide (p = q).
Proof.
  intros Hd. simpl. case_bool_decide as Hpq.
  - subst. apply Z.eqb_refl.
  - apply Z.eqb_neq. by apply presets_distinct_neq.
Qed.

(** On a recognized preset the [switch] runs the case of that preset. *)
Lemma blendType_switch_preset (p : preset) (this : Material) :
  presets_distinct pc ->
  blendType_switch pc (VNum (preset_code pc p)) this =
  let '(b, src, dst, eqn) := spec_row pc p in assign_blend b src dst eqn this.
Proof.
  intros Hd. unfold blendType_switch.
  change (BLEND_NONE pc) with (preset_code pc NONE).
  change (BLEND_NORMAL pc) with (preset_code pc NORMAL).
  change (BLEND_PREMULTIPLIED pc) with (preset_code pc PREMULTIPLIED).
  change (BLEND_ADDITIVE pc) with (preset_code pc ADDITIVE).
  change (BLEND_ADDITIVEALPHA pc) with (preset_code pc ADDITIVEALPHA).
  change (BLEND_MULTIPLICATIVE pc) with (preset_code pc MULTIPLICATIVE).
  rewrite !strict_eq_num_code by done.
  destruct p; reflexivity.
Qed.

Lemma strict_eq_num_true (v : value) (c : Z) :
  JS.strict_eq_num v c = true -> v = VNum c.
Proof. destruct v; simpl; try discriminate. by intros ->%Z.eqb_eq. Qed.

Lemma quadruple_assign_blend b src dst eqn this :
  quadruple (assign_blend b src dst eqn this) = (b, src, dst, eqn).
Proof. reflexivity. Qed.

Lemma same_outside_assign_blend b src dst eqn this :
  same_outside_blend this (assign_blend b src dst eqn this).
Proof. repeat split. Qed.

(** The world a loop of [updateKey] calls leaves. *)
Lemma for_each_updateKey (l : list mesh_ref) (w : World) :
  for_each MeshInstance_updateKey l w =
  (tt, {| next_id := next_id w; mesh_shader := mesh_shader w;
          global_i := global_i w;
          trace := trace w ++ map EvUpdateKey l |}).
Proof.
  revert w. induction l as [|mi l IH]; intros w; simpl.
  - unfold ret. rewrite app_nil_r. by destruct w.
  - unfold bind, MeshInstance_updateKey, emit. rewrite IH. simpl.
    by rewrite <- app_assoc.
Qed.

Lemma blendType_set_eq (type : value) (this : Material) (w : World) :
  blendType_set pc type this w =
  (blendType_switch pc type this,
   {| next_id := next_id w; mesh_shader := mesh_shader w;
      global_i := global_i w;
      trace := trace w ++
               map EvUpdateKey (meshInstances (blendType_switch pc type this)) |}).
Proof.
  unfold blendType_set, _updateMeshInstanceKeys, bind.
  by rewrite for_each_updateKey.
Qed.

Lemma meshInstances_switch (type : value) (this : Material) :
  meshInstances (blendType_switch pc type this) = meshInstances this.
Proof. unfold blendType_switch. by repeat case_match. Qed.

Lemma updateKey_targets_map (l : list mesh_ref) :
  updateKey_targets (map EvUpdateKey l) = l.
Proof. induction l as [|mi l IH]; simpl; congruence. Qed.

(** The getter on a material whose blend fields are a row of the table. *)
Lemma blendType_get_row (p : preset) (this : Material) :
  blendmodes_distinct pc ->
  quadruple this = spec_row pc p ->
  blendType_get pc this = preset_code pc p.
Proof.
  unfold blendmodes_distinct, quadruple.
  rewrite !NoDup_cons, !not_elem_of_cons.
  intros Hd Hq. unfold blendType_get.
  destruct p; simpl in Hq; injection Hq as -> -> -> ->; simpl;
    rewrite ?Z.eqb_refl; simpl; try reflexivity;
    repeat (match goal with
            | |- context [Z.eqb ?a ?b] =>
                destruct (Z.eqb_spec a b); [destruct_and!; congruence | simpl]
            end); reflexivity.
Qed.

End BlendType.

(** ** The claims about the blend type *)

Section BlendTypeClaims.

Variable pc : Constants.

(** C1. Setting the blend type to one of the six presets and reading it
    back returns that preset; and a material whose four raw blend fields
    are a row of the table reads as the preset of that row, however the
    fields were assigned. *)
Theorem blendType_roundtrip (p : preset) (this m : Material) (w : World) :
  presets_distinct pc ->
  blendmodes_distinct pc ->
  quadruple m = spec_row pc p ->
  blendType_get pc (blendType_set pc (VNum (preset_code pc p)) this w).1
    = preset_code pc p /\
  blendType_get pc m = preset_code pc p.
Proof.
  intros Hp Hm Hq. split.
  - rewrite blendType_set_eq. simpl.
    apply blendType_get_row; [done|].
    rewrite blendType_switch_preset by done.
    destruct (spec_row pc p) as [[[b src] dst] eqn].
    apply quadruple_assign_blend.
  - by apply blendType_get_row.
Qed.

(** C2. For a recognized preset the setter assigns the whole row of the
    table, enabled, src, dst and equation, and no other field of the
    material. *)
Theorem blendType_set_assigns_row (p : preset) (this : Material) (w : World) :
  presets_distinct pc ->
  let this' := (blendType_set pc (VNum (preset_code pc p)) this w).1 in
  quadruple this' = spec_row pc p /\
  blend this' = (spec_row pc p).1.1.1 /\
  same_outside_blend this this'.
Proof.
  intros Hp. rewrite blendType_set_eq. simpl.
  rewrite blendType_switch_preset by done.
  destruct (spec_row pc p) as [[[b src] dst] eqn]. simpl.
  split; [apply quadruple_assign_blend|].
  split; [reflexivity|]. apply same_outside_assign_blend.
Qed.

(** C3. When the four raw blend fields are not a row of the table, the
    getter returns NORMAL; the getter is a total function, so the read
    does not fail. *)
Theorem blendType_get_fallback (this : Material) :
  (forall p, quadruple this <> spec_row pc p) ->
  blendType_get pc this = BLEND_NORMAL pc.
Proof.
  intros Hrow. unfold blendType_get.
  repeat match goal with
  | |- (if ?c then _ else _) = _ => destruct c eqn:?; [|idtac]
  end; try reflexivity; exfalso.
  all: repeat match goal with
       | H : _ && _ = true |- _ => apply andb_prop in H; destruct H
       | H : negb _ = true |- _ => apply negb_true_iff in H
       | H : (_ =? _) = true |- _ => apply Z.eqb_eq in H
       end.
  - by apply (Hrow NONE); unfold quadruple; simpl; repeat f_equal.
  - by apply (Hrow ADDITIVE); unfold quadruple; simpl; repeat f_equal.
  - by apply (Hrow ADDITIVEALPHA); unfold quadruple; simpl; repeat f_equal.
  - by apply (Hrow MULTIPLICATIVE); unfold quadruple; simpl; repeat f_equal.
  - by apply (Hrow PREMULTIPLIED); unfold quadruple; simpl; repeat f_equal.
Qed.

(** C4. Whatever value is written, the setter calls [updateKey] once for
    every entry of [meshInstances], in the order of the list, and makes
    no other call before it returns: with [n] entries that is [n] calls,
    one on each. *)
Theorem blendType_set_updates_keys (type : value) (this : Material) (w : World) :
  let '(this', w') := blendType_set pc type this w in
  trace w' = trace w ++ map EvUpdateKey (meshInstances this) /\
  updateKey_targets (drop (length (trace w)) (trace w')) = meshInstances this /\
  length (drop (length (trace w)) (trace w')) = length (meshInstances this) /\
  meshInstances this' = meshInstances this.
Proof.
  rewrite blendType_set_eq, meshInstances_switch. simpl.
  rewrite drop_app_length, updateKey_targets_map, length_map. done.
Qed.

(** C5. Writing a value that is none of the six presets returns normally
    (the setter has no throwing path) and leaves every field of the
    material as it was; the id counter and the shader slots of the mesh
    instances are untouched as well. *)
Theorem blendType_set_unrecognized (type : value) (this : Material) (w : World) :
  (forall p, type <> VNum (preset_code pc p)) ->
  let '(this', w') := blendType_set pc type this w in
  this' = this /\
  next_id w' = next_id w /\ mesh_shader w' = mesh_shader w.
Proof.
  intros Hno. rewrite blendType_set_eq. simpl.
  split; [|done]. unfold blendType_switch.
  repeat match goal with
  | |- (if JS.strict_eq_num type ?c then _ else _) = _ =>
      destruct (JS.strict_eq_num type c) eqn:Heq;
      [exfalso; apply strict_eq_num_true in Heq | clear Heq]
  end; try reflexivity.
  - by apply (Hno NONE).
  - by apply (Hno NORMAL).
  - by apply (Hno PREMULTIPLIED).
  - by apply (Hno ADDITIVE).
  - by apply (Hno ADDITIVEALPHA).
  - by apply (Hno MULTIPLICATIVE).
Qed.

End BlendTypeClaims.

(** ** Cloning and the variant cache *)

Section CloneAndVariants.

Variable pc : Constants.

(** The shader slots after the loop of [clearVariants]. *)
Lemma for_each_clear_shader (l : list mesh_ref) (w : World) :
  let w' := (for_each (fun mi => set_mesh_shader mi None) l w).2 in
  next_id w' = next_id w /\ global_i w' = global_i w /\
  trace w' = trace w /\
  forall mi, mesh_shader w' mi =
             if bool_decide (mi ∈ l) then None else mesh_shader w mi.
Proof.
  revert w. induction l as [|x l IH]; intros w; simpl.
  - repeat split.
  - unfold bind. simpl. specialize (IH (set_mesh_shader x None w).2).
    destruct IH as (Hid & Hi & Ht & Hs). simpl in *.
    repeat split; try done. intros mi. rewrite Hs.
    destruct (decide (mi ∈ l)) as [Hin|Hin].
    + rewrite !bool_decide_eq_true_2; [done| |done]. by right.
    + rewrite (bool_decide_eq_false_2 _ Hin).
      destruct (decide (x = mi)) as [->|Hne].
      * rewrite fn_lookup_insert, bool_decide_eq_true_2; [done|]. by left.
      * rewrite fn_lookup_insert_ne by done.
        rewrite bool_decide_eq_false_2; [done|].
        rewrite elem_of_cons. intros [Heq|Hl]; [by symmetry in Heq | done].
Qed.

(** C7. The clone of a material whose id was issued by the counter has an
    id that no material has yet (at least the counter before the call,
    below the counter after it), hence not the id of the source; it has
    the name and the render-state scalars of the source, an empty
    parameter table, an empty variant cache, no mesh instance and no
    shader. *)
Theorem clone_fresh_copy (this : Material) (w : World) :
  id this < next_id w ->
  let '(c, w') := clone pc this w in
  id c <> id this /\
  (next_id w <= id c /\ id c < next_id w') /\
  name c = name this /\
  alphaTest c = alphaTest this /\
  quadruple c = quadruple this /\
  cull c = cull this /\
  depthTest c = depthTest this /\ depthWrite c = depthWrite this /\
  redWrite c = redWrite this /\ greenWrite c = greenWrite this /\
  blueWrite c = blueWrite this /\ alphaWrite c = alphaWrite this /\
  parameters c = ∅ /\ variants c = ∅ /\ meshInstances c = [] /\
  shader c = None.
Proof.
  intros Hid. unfold clone, _cloneInternal, Material_new, bind, fresh_id, ret.
  simpl. repeat split; try reflexivity; lia.
Qed.

(** C9. [clearVariants] empties the variant cache and leaves the shader
    slot of every attached mesh instance at null; the slots of the other
    mesh instances keep their content. *)
Theorem clearVariants_clears (this : Material) (w : World) :
  let '(this', w') := clearVariants this w in
  variants this' = ∅ /\
  Forall (fun mi => mesh_shader w' mi = None) (meshInstances this) /\
  (forall mi, mesh_shader w' mi =
              if bool_decide (mi ∈ meshInstances this) then None
              else mesh_shader w mi) /\
  meshInstances this' = meshInstances this.
Proof.
  unfold clearVariants, bind, ret, set_global_i. simpl.
  pose proof (for_each_clear_shader (meshInstances this)
    {| next_id := next_id w; mesh_shader := mesh_shader w;
       global_i := VNum 0; trace := trace w |}) as H.
  destruct (for_each _ _ _) as [[] w1]. simpl in *.
  destruct H as (_ & _ & _ & Hs).
  split; [done|]. split; [|done].
  apply Forall_forall. intros mi Hin. rewrite Hs.
  by rewrite bool_decide_eq_true_2.
Qed.

End CloneAndVariants.

(** ** The parameter table *)

Section Parameters.

Lemma is_undefined_false (v : value) :
  v <> VUndefined -> JS.is_undefined v = false.
Proof. by destruct v. Qed.

(** With a defined second argument the method stores and returns, without
    calling itself. *)
Lemma setParameter_two_args (fuel : nat) (this : Material) (arg data : value) :
  data <> VUndefined ->
  setParameter (S fuel) this arg data
  = Some (Returned (store_parameter arg data this)).
Proof. intros Hd. simpl. by rewrite is_undefined_false. Qed.

Lemma lookup_parameter_own (this : Material) (key : string) :
  JS.inherited key = false ->
  lookup_parameter this key = Own <$> parameters this !! key.
Proof.
  intros Hk. unfold lookup_parameter. rewrite Hk.
  by destruct (parameters this !! key).
Qed.

(** On a name that is no member of [Object.prototype] the last statements
    of [setParameter] write the table. *)
Lemma store_parameter_own (name data : value) (this : Material) :
  JS.inherited (JS.to_string name) = false ->
  store_parameter name data this =
  set_parameters
    (<[JS.to_string name :=
         {| scopeId := parameters this !! JS.to_string name ≫= scopeId;
            data := data |}]> (parameters this)) this.
Proof.
  intros Hk. unfold store_parameter. rewrite lookup_parameter_own by done.
  by destruct (parameters this !! JS.to_string name).
Qed.

Lemma getParameter_store (name data : value) (this : Material) :
  JS.inherited (JS.to_string name) = false ->
  getParameter (store_parameter name data this) name
  = Some (Own {| scopeId := parameters this !! JS.to_string name ≫= scopeId;
                 data := data |}).
Proof.
  intros Hk. rewrite store_parameter_own by done.
  unfold getParameter. rewrite lookup_parameter_own by done. simpl.
  by rewrite lookup_insert_eq.
Qed.

Lemma parameters_store_ne (name data : value) (this : Material) (k : string) :
  k <> JS.to_string name ->
  parameters (store_parameter name data this) !! k = parameters this !! k.
Proof.
  intros Hk. unfold store_parameter.
  destruct (lookup_parameter this (JS.to_string name)) as [[old|key]|]; simpl;
    by rewrite ?lookup_insert_ne.
Qed.

(** C6 fails on the code at the names that the table inherits from
    [Object.prototype].  At such a name without a record the lookup finds
    the inherited member, which is truthy: the value goes to that object,
    the method returns with the material as it was, no record is inserted,
    and [getParameter] goes on answering with the inherited member. *)
Theorem setParameter_inherited_name
    (fuel : nat) (this : Material) (name : string) (v : value) :
  JS.inherited name = true ->
  parameters this !! name = None ->
  v <> VUndefined ->
  exists this',
    setParameter (S fuel) this (VStr name) v = Some (Returned this') /\
    this' = this /\
    parameters this' !! name = None /\
    getParameter this' (VStr name) = Some (FromPrototype name).
Proof.
  intros Hinh Hnone Hv. exists this.
  rewrite setParameter_two_args by done.
  unfold store_parameter, getParameter, lookup_parameter. simpl.
  by rewrite Hnone, Hinh.
Qed.

(** X23. On a name that is no member of [Object.prototype],
    [setParameter(name, value)] with a defined [value] returns after an
    upsert: the record at [name] carries the new value and the scope id the
    old record had, or null when there was no record, and no other name is
    touched.  A second [setParameter] on the same name replaces the value
    again and leaves the scope id that the record had after the first
    call. *)
Theorem setParameter_upsert (fuel : nat) (this : Material) (name : string)
    (v1 v2 : value) :
  JS.inherited name = false ->
  v1 <> VUndefined ->
  v2 <> VUndefined ->
  exists this1 this2 p1 p2,
    setParameter (S fuel) this (VStr name) v1 = Some (Returned this1) /\
    setParameter (S fuel) this1 (VStr name) v2 = Some (Returned this2) /\
    getParameter this1 (VStr name) = Some (Own p1) /\
    getParameter this2 (VStr name) = Some (Own p2) /\
    data p1 = v1 /\
    match getParameter this (VStr name) with
    | Some (Own old) => scopeId p1 = scopeId old
    | _ => scopeId p1 = None
    end /\
    (forall k, k <> name -> parameters this1 !! k = parameters this !! k) /\
    data p2 = v2 /\
    scopeId p2 = scopeId p1.
Proof.
  intros Hk H1 H2.
  exists (store_parameter (VStr name) v1 this),
         (store_parameter (VStr name) v2 (store_parameter (VStr name) v1 this)).
  eexists _, _.
  rewrite !setParameter_two_args by done.
  rewrite !getParameter_store by done.
  repeat split.
  - unfold getParameter. rewrite lookup_parameter_own by done. simpl.
    by destruct (parameters this !! name).
  - intros k Hk'. by apply parameters_store_ne.
  - simpl. rewrite store_parameter_own by done. simpl.
    by rewrite lookup_insert_eq.
Qed.

(** The single-argument call on a value with a truthy [length] is the
    loop over its elements. *)
Lemma setParameter_one_arg_loop (fuel : nat) (this : Material) (arg len : value) :
  JS.get_prop arg "length" = Some len ->
  JS.truthy len = true ->
  setParameter (S fuel) this arg VUndefined
  = setParameter_loop (fun this elem => setParameter fuel this elem VUndefined)
      arg (JS.loop_count len) 0 this.
Proof. intros Hlen Ht. simpl. by rewrite Hlen, Ht. Qed.

(** The single-argument call on a value with a falsy [length] stores its
    [name] and [value]. *)
Lemma setParameter_one_arg_store
    (fuel : nat) (this : Material) (arg len name data : value) :
  JS.get_prop arg "length" = Some len ->
  JS.truthy len = false ->
  JS.get_prop arg "name" = Some name ->
  JS.get_prop arg "value" = Some data ->
  setParameter (S fuel) this arg VUndefined
  = Some (Returned (store_parameter name data this)).
Proof. intros Hlen Ht Hn Hv. simpl. by rewrite Hlen, Ht, Hn, Hv. Qed.

(** C10 fails on the code.  Called with a non-empty string and no second
    argument, [setParameter] finds a non-zero [length], enters the loop
    and calls itself on the first character, which is again a non-empty
    string: no depth of calls is enough for it to return. *)
Theorem setParameter_string_diverges
    (fuel : nat) (this : Material) (c : ascii) (s : string) :
  setParameter fuel this (VStr (String c s)) VUndefined = None.
Proof.
  revert this c s. induction fuel as [|fuel IH]; intros this c s; [done|].
  rewrite (setParameter_one_arg_loop fuel this (VStr (String c s))
             (VNum (Z.of_nat (String.length (String c s)))));
    [|done|by simpl; destruct (String.length s)].
  assert (JS.loop_count (VNum (Z.of_nat (String.length (String c s))))
          = S (String.length s)) as ->.
  { unfold JS.loop_count. cbn [JS.to_number]. by rewrite Nat2Z.id. }
  cbn [setParameter_loop JS.get_index String.get].
  by rewrite IH.
Qed.

(** Called with nothing, the method throws on reading [length]. *)
Lemma setParameter_no_argument (fuel : nat) (this : Material) :
  setParameter (S fuel) this VUndefined VUndefined = Some (Threw TypeError this).
Proof. reflexivity. Qed.

(** The empty sequence and the empty string have a zero [length]: the
    method takes their [name] and [value], both undefined, and stores a
    record under the key "undefined". *)
Lemma setParameter_empty_sequence (fuel : nat) (this : Material) :
  setParameter (S fuel) this (VArr []) VUndefined
  = Some (Returned (store_parameter VUndefined VUndefined this)) /\
  setParameter (S fuel) this (VStr "") VUndefined
  = Some (Returned (store_parameter VUndefined VUndefined this)).
Proof. split; reflexivity. Qed.

Lemma setParameter_uniform (fuel : nat) (this : Material) (e : value) :
  is_uniform e ->
  setParameter (S fuel) this e VUndefined = Some (Returned (store_uniform this e)).
Proof.
  intros (props & -> & Hlen).
  by apply (setParameter_one_arg_store fuel this (VObj props)
              (JS.own_prop props "length")).
Qed.

(** The loop over the elements that are left of an array, when every call
    returns. *)
Lemma setParameter_loop_array (call : Material -> value -> option outcome)
    (f : Material -> value -> Material) (pre suf : list value) (this : Material) :
  Forall (fun e => forall m, call m e = Some (Returned (f m e))) suf ->
  setParameter_loop call (VArr (pre ++ suf)) (length suf) (length pre) this
  = Some (Returned (foldl f this suf)).
Proof.
  revert pre this. induction suf as [|e suf IH]; intros pre this Hall; [done|].
  apply Forall_cons in Hall as [He Hall]. simpl.
  rewrite app_nth2, Nat.sub_diag by lia. simpl. rewrite He.
  specialize (IH (pre ++ [e]) (f this e) Hall).
  rewrite <- app_assoc, length_app, Nat.add_1_r in IH. exact IH.
Qed.

(** A non-empty sequence of uniform objects is stored element by element,
    in the order of the sequence. *)
Lemma setParameter_sequence (fuel : nat) (this : Material) (l : list value) :
  l <> [] ->
  Forall is_uniform l ->
  setParameter (S (S fuel)) this (VArr l) VUndefined
  = Some (Returned (foldl store_uniform this l)).
Proof.
  intros Hne Hall.
  rewrite (setParameter_one_arg_loop _ _ _ (VNum (Z.of_nat (length l))));
    [|done|by destruct l].
  unfold JS.loop_count. cbn [JS.to_number]. rewrite Nat2Z.id.
  apply (setParameter_loop_array _ store_uniform []).
  eapply Forall_impl; [exact Hall|]. intros e He m.
  by apply setParameter_uniform.
Qed.

(** *** Where the single-argument call does return *)

Lemma depth_elem (l : list value) (x : value) :
  x ∈ l -> (depth x < depth (VArr l))%nat.
Proof.
  simpl. induction 1 as [x l|x y l _ IH]; simpl; lia.
Qed.

Lemma depth_prop (props : list (string * value)) (k : string) (x : value) :
  (k, x) ∈ props -> (depth x < depth (VObj props))%nat.
Proof.
  simpl. intros Hin. remember (k, x) as kv eqn:Hkv.
  induction Hin as [kv l|kv y l _ IH]; subst; simpl; [lia|].
  specialize (IH eq_refl). lia.
Qed.

Lemma own_prop_cases (props : list (string * value)) (p : string) :
  JS.own_prop props p = VUndefined \/
  exists k, (k, JS.own_prop props p) ∈ props.
Proof.
  induction props as [|[k v] props IH]; simpl; [by left|].
  destruct (String.eqb k p).
  - right. exists k. by left.
  - destruct IH as [IH|[k' IH]]; [by left|]. right. exists k'. by right.
Qed.

Lemma nth_cases (l : list value) (i : nat) :
  nth i l VUndefined = VUndefined \/ nth i l VUndefined ∈ l.
Proof.
  destruct (nth_in_or_default i l VUndefined) as [Hin|Heq]; [|by left].
  right. by apply list_elem_of_In.
Qed.

(** A loop whose calls all return or throw does so too. *)
Lemma setParameter_loop_total (call : Material -> value -> option outcome)
    (uniformObject : value) (n i : nat) (this : Material) :
  (forall j m, exists out, call m (JS.get_index uniformObject j) = Some out) ->
  exists out, setParameter_loop call uniformObject n i this = Some out.
Proof.
  intros Hcall. revert i this. induction n as [|n IH]; intros i this; simpl.
  - by eexists.
  - destruct (Hcall i this) as [[this'|e this'] ->]; [apply IH|by eexists].
Qed.

(** On a value none of whose reachable elements is a non-empty string, the
    single-argument call returns or throws within as many nested calls as
    the value is deep. *)
Lemma setParameter_total (n : nat) (v : value) (this : Material) :
  (depth v <= n)%nat ->
  loop_safe v = true ->
  exists out, setParameter (S n) this v VUndefined = Some out.
Proof.
  revert v this. induction n as [n IH] using lt_wf_ind. intros v this Hd Hs.
  destruct (JS.get_prop v "length") as [len|] eqn:Hlen;
    [|simpl; rewrite Hlen; by eexists].
  destruct (JS.truthy len) eqn:Ht.
  2:{ destruct v; simplify_eq/=; rewrite ?Ht; by eexists. }
  assert (forall j, JS.get_index v j = VUndefined \/
                    ((depth (JS.get_index v j) < depth v)%nat /\
                     loop_safe (JS.get_index v j) = true)) as Helem.
  { intros j. destruct v; simplify_eq/=; try (by left).
    - destruct s; simplify_eq/=.
    - destruct (nth_cases elems j) as [?|Hin]; [by left|right]. split.
      + by apply (depth_elem elems).
      + rewrite forallb_forall in Hs. by apply Hs, list_elem_of_In.
    - destruct (own_prop_cases props (pretty j)) as [?|[k Hin]]; [by left|right].
      split.
      + by apply (depth_prop props k).
      + rewrite Ht in Hs. rewrite forallb_forall in Hs.
        by apply (Hs (k, JS.own_prop props (pretty j))), list_elem_of_In. }
  rewrite (setParameter_one_arg_loop n this v len) by done.
  apply setParameter_loop_total. intros j m.
  destruct (Helem j) as [->|[Hlt Hsafe]].
  - destruct n; [|by eexists].
    exfalso. destruct v; simplify_eq/=; try lia. by destruct s.
  - destruct n as [|n]; [lia|].
    apply (IH n); [lia|lia|done].
Qed.

End Parameters.

(** ** Pushing the parameters into the scope *)

Section SetParameters.

Variable resolve : string -> ScopeId.

Lemma set_parameters_id (this : Material) :
  set_parameters (parameters this) this = this.
Proof. by destruct this. Qed.

Lemma set_parameters_twice (T T' : gmap string ParamRecord) (this : Material) :
  set_parameters T (set_parameters T' this) = set_parameters T this.
Proof. reflexivity. Qed.

(** The loop over a list of entries: the table receives the pushed record
    of every entry and the trace the calls of every entry. *)
Lemma for_each_on_body (l : list (string * ParamRecord)) (this : Material) (w : World) :
  for_each_on (setParameters_body resolve) l this w =
  (set_parameters
     (foldl (fun T e => <[e.1 := pushed resolve e.1 e.2]> T) (parameters this) l)
     this,
   {| next_id := next_id w; mesh_shader := mesh_shader w;
      global_i := global_i w;
      trace := trace w ++ flat_map (entry_events resolve) l |}).
Proof.
  revert this w. induction l as [|[k p] l IH]; intros this w; simpl.
  - unfold ret. rewrite set_parameters_id, app_nil_r. by destruct w.
  - unfold bind at 1. unfold setParameters_body, entry_events, pushed, handle_of.
    destruct (scopeId p) as [sid|] eqn:Hsid; simpl;
      unfold bind, emit, ret; simpl; rewrite IH; simpl;
      rewrite ?Hsid; simpl; rewrite <- ?app_assoc; done.
Qed.

(** The table after the inserts of a list of entries with distinct
    names. *)
Lemma lookup_foldl_pushed (l : list (string * ParamRecord))
    (T : gmap string ParamRecord) (k : string) :
  NoDup l.*1 ->
  foldl (fun T e => <[e.1 := pushed resolve e.1 e.2]> T) T l !! k =
  match (list_to_map l : gmap string ParamRecord) !! k with
  | Some p => Some (pushed resolve k p)
  | None => T !! k
  end.
Proof.
  revert T. induction l as [|[k0 p0] l IH]; intros T Hnd; [done|].
  simpl in *. apply NoDup_cons in Hnd as [Hk0 Hnd]. rewrite IH by done.
  destruct (decide (k0 = k)) as [->|Hne].
  - rewrite lookup_insert_eq.
    rewrite (not_elem_of_list_to_map_1 l k) by done.
    by rewrite lookup_insert_eq.
  - rewrite (lookup_insert_ne (list_to_map l) k0 k) by done.
    destruct (list_to_map l !! k); [done|]. by rewrite lookup_insert_ne.
Qed.

Lemma parameters_setParameters (this : Material) (w : World) (k : string) :
  parameters (setParameters resolve this w).1 !! k
  = pushed resolve k <$> parameters this !! k.
Proof.
  unfold setParameters. rewrite for_each_on_body. simpl.
  rewrite lookup_foldl_pushed by apply NoDup_fst_map_to_list.
  rewrite list_to_map_to_list.
  by destruct (parameters this !! k).
Qed.

(** Names are resolved for the entries that hold null, and for no other. *)
Lemma resolved_names_entries (l : list (string * ParamRecord)) :
  resolved_names (flat_map (entry_events resolve) l)
  = (filter (fun e => scopeId e.2 = None) l).*1.
Proof.
  induction l as [|[k p] l IH]; [done|].
  simpl. unfold resolved_names in *. rewrite omap_app, IH.
  unfold entry_events. simpl.
  destruct (scopeId p) as [sid|] eqn:Hsid; simpl.
  - rewrite filter_cons_False; [done|]. simpl. by rewrite Hsid.
  - rewrite filter_cons_True; [done|]. done.
Qed.

Lemma NoDup_resolved (T : gmap string ParamRecord) :
  NoDup (filter (fun e : string * ParamRecord => scopeId e.2 = None)
           (map_to_list T)).*1.
Proof.
  apply (sublist_NoDup _ (map_to_list T).*1);
    [apply NoDup_fst_map_to_list|].
  apply fmap_sublist. apply sublist_filter.
Qed.

(** No entry of a table that was pushed holds null. *)
Lemma filter_null_pushed (T T' : gmap string ParamRecord) :
  (forall k, T' !! k = pushed resolve k <$> T !! k) ->
  filter (fun e : string * ParamRecord => scopeId e.2 = None) (map_to_list T')
  = [].
Proof.
  intros HT.
  assert (Forall (fun e : string * ParamRecord => scopeId e.2 <> None)
            (map_to_list T')) as Hall.
  { apply Forall_forall. intros [k p] Hin%elem_of_map_to_list.
    rewrite HT in Hin. simpl.
    destruct (T !! k) as [p0|]; simplify_eq/=. done. }
  induction Hall as [|e l He _ IH]; [done|].
  by rewrite filter_cons_False.
Qed.

Lemma trace_setParameters (this : Material) (w : World) :
  trace (setParameters resolve this w).2
  = trace w ++ flat_map (entry_events resolve) (map_to_list (parameters this)).
Proof. unfold setParameters. by rewrite for_each_on_body. Qed.

Lemma calls_setParameters (this : Material) (w : World) :
  calls_since w (setParameters resolve this w).2
  = flat_map (entry_events resolve) (map_to_list (parameters this)).
Proof.
  unfold calls_since. by rewrite trace_setParameters, drop_app_length.
Qed.

Lemma pushed_idem (k : string) (p : ParamRecord) :
  pushed resolve k (pushed resolve k p) = pushed resolve k p.
Proof. reflexivity. Qed.

(** C8. [setParameters] visits every entry of the table: for an entry
    that holds null it asks the resolver for the scope id of the name and
    keeps it in the record, for an entry that holds a scope id it makes no
    call to the resolver, and in both cases it then sets the value of the
    entry on that scope id.  No name is resolved twice in a run, and a
    second run resolves no name at all and leaves the scope ids as they
    are. *)
Theorem setParameters_pushes (this : Material) (w : World) :
  let '(this1, w1) := setParameters resolve this w in
  let '(this2, w2) := setParameters resolve this1 w1 in
  let entries := map_to_list (parameters this) in
  trace w1 = trace w ++ calls_since w w1 /\
  calls_since w w1 = flat_map (entry_events resolve) entries /\
  resolved_names (calls_since w w1)
    = (filter (fun e => scopeId e.2 = None) entries).*1 /\
  NoDup (resolved_names (calls_since w w1)) /\
  (forall k, parameters this1 !! k = pushed resolve k <$> parameters this !! k) /\
  resolved_names (calls_since w1 w2) = [] /\
  parameters this2 = parameters this1.
Proof.
  pose proof (trace_setParameters this w) as Ht.
  pose proof (calls_setParameters this w) as Hc.
  pose proof (parameters_setParameters this w) as Hp.
  destruct (setParameters resolve this w) as [this1 w1]. simpl in *.
  pose proof (calls_setParameters this1 w1) as Hc2.
  pose proof (parameters_setParameters this1 w1) as Hp2.
  destruct (setParameters resolve this1 w1) as [this2 w2]. simpl in *.
  rewrite Hc, Hc2, !resolved_names_entries.
  repeat split; try done.
  - apply NoDup_resolved.
  - by rewrite (filter_null_pushed (parameters this)).
  - apply map_eq. intros k. rewrite Hp2, Hp.
    by destruct (parameters this !! k).
Qed.

End SetParameters.

(** ** The theorems at concrete inputs *)

Lemma sample_presets_distinct : presets_distinct sample_constants.
Proof. apply (bool_decide_unpack _). vm_compute. exact I. Defined.

Lemma sample_blendmodes_distinct : blendmodes_distinct sample_constants.
Proof. apply (bool_decide_unpack _). vm_compute. exact I. Defined.

(** ADDITIVE written through the setter, and the ADDITIVE row written field
    by field, both read as ADDITIVE. *)
Lemma blendType_roundtrip_witness :
  blendType_get sample_constants
    (blendType_set sample_constants
       (VNum (preset_code sample_constants ADDITIVE))
       sample_material sample_world).1
    = preset_code sample_constants ADDITIVE /\
  blendType_get sample_constants (set_blendDst 1 (set_blendSrc 1 sample_material))
    = preset_code sample_constants ADDITIVE.
Proof.
  apply (blendType_roundtrip sample_constants ADDITIVE sample_material
           (set_blendDst 1 (set_blendSrc 1 sample_material)) sample_world).
  - exact sample_presets_distinct.
  - exact sample_blendmodes_distinct.
  - reflexivity.
Defined.

Lemma blendType_set_assigns_row_witness :
  let this' :=
    (blendType_set sample_constants
       (VNum (preset_code sample_constants MULTIPLICATIVE))
       sample_material sample_world).1 in
  quadruple this' = spec_row sample_constants MULTIPLICATIVE /\
  blend this' = (spec_row sample_constants MULTIPLICATIVE).1.1.1 /\
  same_outside_blend sample_material this'.
Proof.
  apply (blendType_set_assigns_row sample_constants MULTIPLICATIVE
           sample_material sample_world).
  exact sample_presets_distinct.
Defined.

(** Blending enabled with both factors ZERO is no row of the table. *)
Lemma blendType_get_fallback_witness :
  blendType_get sample_constants sample_material = BLEND_NORMAL sample_constants.
Proof.
  apply (blendType_get_fallback sample_constants sample_material).
  intros p. destruct p; vm_compute; discriminate.
Defined.

(** The number 0 and the string "normal" are not presets. *)
Lemma blendType_set_unrecognized_witness :
  let '(this', w') :=
    blendType_set sample_constants (VNum 0) sample_material sample_world in
  this' = sample_material /\
  next_id w' = next_id sample_world /\ mesh_shader w' = mesh_shader sample_world.
Proof.
  apply (blendType_set_unrecognized sample_constants (VNum 0)
           sample_material sample_world).
  intros p. destruct p; vm_compute; discriminate.
Defined.

(** "constructor" on the sample material: the table has no record there
    and gets none. *)
Lemma setParameter_inherited_name_witness :
  exists this',
    setParameter 1 sample_material (VStr "constructor") (VNum 1)
      = Some (Returned this') /\
    this' = sample_material /\
    parameters this' !! "constructor"%string = None /\
    getParameter this' (VStr "constructor") = Some (FromPrototype "constructor").
Proof.
  apply (setParameter_inherited_name 0 sample_material "constructor" (VNum 1)).
  - reflexivity.
  - reflexivity.
  - discriminate.
Defined.

Lemma setParameter_upsert_witness :
  exists this1 this2 p1 p2,
    setParameter 1 sample_material (VStr "opacity") (VNum 1)
      = Some (Returned this1) /\
    setParameter 1 this1 (VStr "opacity") (VNum 2) = Some (Returned this2) /\
    getParameter this1 (VStr "opacity") = Some (Own p1) /\
    getParameter this2 (VStr "opacity") = Some (Own p2) /\
    data p1 = VNum 1 /\
    match getParameter sample_material (VStr "opacity") with
    | Some (Own old) => scopeId p1 = scopeId old
    | _ => scopeId p1 = None
    end /\
    (forall k, k <> "opacity"%string ->
               parameters this1 !! k = parameters sample_material !! k) /\
    data p2 = VNum 2 /\
    scopeId p2 = scopeId p1.
Proof.
  apply (setParameter_upsert 0 sample_material "opacity" (VNum 1) (VNum 2));
    [reflexivity|discriminate|discriminate].
Defined.

Lemma clone_fresh_copy_witness :
  let '(c, w') := clone sample_constants sample_material sample_world in
  id c <> id sample_material /\
  (next_id sample_world <= id c /\ id c < next_id w') /\
  name c = name sample_material /\
  alphaTest c = alphaTest sample_material /\
  quadruple c = quadruple sample_material /\
  cull c = cull sample_material /\
  depthTest c = depthTest sample_material /\
  depthWrite c = depthWrite sample_material /\
  redWrite c = redWrite sample_material /\
  greenWrite c = greenWrite sample_material /\
  blueWrite c = blueWrite sample_material /\
  alphaWrite c = alphaWrite sample_material /\
  parameters c = ∅ /\ variants c = ∅ /\ meshInstances c = [] /\
  shader c = None.
Proof.
  apply (clone_fresh_copy sample_constants sample_material sample_world).
  reflexivity.
Defined.

(** A new material reads as BLEND_NONE. *)
Lemma blendType_default (pc : Constants) (w : World) :
  blendType_get pc (Material_new pc w).1 = BLEND_NONE pc.
Proof.
  unfold blendType_get, Material_new, bind, fresh_id, ret. simpl.
  by rewrite !Z.eqb_refl.
Qed.

(** Writing NORMAL on the sample material calls [updateKey] on its two mesh
    instances. *)
Example blendType_set_sample_trace :
  trace (blendType_set sample_constants (VNum 2) sample_material sample_world).2
  = [EvUpdateKey 3%nat; EvUpdateKey 5%nat].
Proof. reflexivity. Qed.

(** Pushing the parameters of the sample material, with a resolver that
    numbers a name by its length: "opacity" holds scope id 11 and is not
    resolved, "tint" is resolved to 4. *)
Example setParameters_sample :
  let '(this', w') := setParameters String.length sample_material sample_world in
  getParameter this' (VStr "tint")
    = Some (Own {| scopeId := Some 4%nat; data := VArr [VNum 1; VNum 0; VNum 0] |}) /\
  getParameter this' (VStr "opacity")
    = Some (Own {| scopeId := Some 11%nat; data := VNum 1 |}) /\
  resolved_names (trace w') = ["tint"%string].
Proof. vm_compute. repeat split. Qed.

(** A sequence of two uniform objects on the same name: the last value is
    the one that stays. *)
Example setParameter_sample_sequence :
  exists this',
    setParameter 2 sample_material
      (VArr [VObj [("name"%string, VStr "tint"); ("value"%string, VNum 1)];
             VObj [("name"%string, VStr "tint"); ("value"%string, VNum 2)]])
      VUndefined = Some (Returned this') /\
    getParameter this' (VStr "tint")
    = Some (Own {| scopeId := None; data := VNum 2 |}).
Proof. eexists. split; [reflexivity|]. vm_compute. reflexivity. Qed.

(** A thousand nested calls do not bring [setParameter("x")] to return. *)
Example setParameter_sample_string :
  setParameter 1000 sample_material (VStr "x") VUndefined = None.
Proof. vm_compute. reflexivity. Qed.

(** * Further properties of the methods *)

(** ** The blend type as a view of the four fields *)

Section BlendTypeView.

Variable pc : Constants.

(** The getter either reads a row of the table or falls back. *)
Lemma blendType_get_cases (this : Material) :
  (exists q, quadruple this = spec_row pc q /\
             blendType_get pc this = preset_code pc q) \/
  ((forall q, quadruple this <> spec_row pc q) /\
   blendType_get pc this = BLEND_NORMAL pc).
Proof.
  unfold blendType_get.
  repeat match goal with
  | |- context [if ?c then _ else _] => destruct c eqn:?
  end.
  all: repeat match goal with
       | H : _ && _ = true |- _ => apply andb_prop in H; destruct H
       | H : negb _ = true |- _ => apply negb_true_iff in H
       | H : (_ =? _) = true |- _ => apply Z.eqb_eq in H
       end.
  - left. exists NONE. split; [|done]. unfold quadruple; simpl. congruence.
  - left. exists NORMAL. split; [|done]. unfold quadruple; simpl. congruence.
  - left. exists ADDITIVE. split; [|done]. unfold quadruple; simpl. congruence.
  - left. exists ADDITIVEALPHA. split; [|done]. unfold quadruple; simpl. congruence.
  - left. exists MULTIPLICATIVE. split; [|done]. unfold quadruple; simpl. congruence.
  - left. exists PREMULTIPLIED. split; [|done]. unfold quadruple; simpl. congruence.
  - right. split; [|done]. intros q Hq. unfold quadruple in Hq.
    destruct q; simpl in Hq; injection Hq as Hb Hs Hd He;
      rewrite Hb, Hs, Hd, He, !Z.eqb_refl in *; simpl in *; discriminate.
Qed.

(** The [switch] either matches no case or runs the case of a preset. *)
Lemma blendType_switch_cases (type : value) (this : Material) :
  ((forall p, type <> VNum (preset_code pc p)) /\
   blendType_switch pc type this = this) \/
  (exists p, type = VNum (preset_code pc p) /\
             blendType_switch pc type this =
             let '(b, src, dst, eqn) := spec_row pc p in
             assign_blend b src dst eqn this).
Proof.
  unfold blendType_switch.
  repeat match goal with
  | |- context [if JS.strict_eq_num type ?c then _ else _] =>
      destruct (JS.strict_eq_num type c) eqn:?
  end.
  all: try match goal with
       | H : JS.strict_eq_num _ _ = true |- _ => apply strict_eq_num_true in H
       end.
  - right. by exists NONE.
  - right. by exists NORMAL.
  - right. by exists PREMULTIPLIED.
  - right. by exists ADDITIVE.
  - right. by exists ADDITIVEALPHA.
  - right. by exists MULTIPLICATIVE.
  - left. split; [|done]. intros p ->.
    destruct p; simpl in *; rewrite Z.eqb_refl in *; discriminate.
Qed.

(** The case that the [switch] runs depends on the written value only. *)
Lemma blendType_switch_uniform (type : value) :
  ((forall p, type <> VNum (preset_code pc p)) /\
   forall m, blendType_switch pc type m = m) \/
  (exists b src dst eqn,
     forall m, blendType_switch pc type m = assign_blend b src dst eqn m).
Proof.
  unfold blendType_switch.
  repeat match goal with
  | |- context [if JS.strict_eq_num type ?c then _ else _] =>
      destruct (JS.strict_eq_num type c) eqn:?
  end; try (right; by do 4 eexists).
  left. split; [|done]. intros p ->.
  destruct p; simpl in *; rewrite Z.eqb_refl in *; discriminate.
Qed.

Lemma assign_blend_id (b : bool) (src dst eqn : Z) (this : Material) :
  quadruple this = (b, src, dst, eqn) ->
  assign_blend b src dst eqn this = this.
Proof. destruct this. unfold quadruple. simpl. by intros [= -> -> -> ->]. Qed.

Lemma assign_blend_switch (b : bool) (src dst eqn : Z) (type : value)
    (this : Material) :
  assign_blend b src dst eqn (blendType_switch pc type this)
  = assign_blend b src dst eqn this.
Proof. unfold blendType_switch. by repeat case_match. Qed.

Lemma same_outside_switch (type : value) (this : Material) :
  same_outside_blend this (blendType_switch pc type this).
Proof. unfold blendType_switch. repeat case_match; repeat split. Qed.

(** X1. Whatever the four fields hold, the getter answers with one of the
    six presets. *)
Theorem blendType_get_range (this : Material) :
  exists p, blendType_get pc this = preset_code pc p.
Proof.
  destruct (blendType_get_cases this) as [(q & _ & Hq)|[_ Hn]].
  - by exists q.
  - by exists NORMAL.
Qed.

(** X2. When the getter answers with a preset other than NORMAL, the four
    fields are the row of that preset. *)
Theorem blendType_get_sound (p : preset) (this : Material) :
  presets_distinct pc ->
  p <> NORMAL ->
  blendType_get pc this = preset_code pc p ->
  quadruple this = spec_row pc p.
Proof.
  intros Hd Hp Hget.
  destruct (blendType_get_cases this) as [(q & Hrow & Hq)|[_ Hn]].
  - destruct (decide (q = p)) as [->|Hne]; [done|].
    exfalso. apply (presets_distinct_neq pc Hd q p Hne). congruence.
  - exfalso. apply (presets_distinct_neq pc Hd NORMAL p); [done|].
    simpl. congruence.
Qed.

(** X3. For every written value the setter leaves the four blend fields as
    they were or sets them to a full row of the table, and it changes no
    other field of the material, nor the id counter, the shader slots or
    the global [i]. *)
Theorem blendType_set_never_partial (type : value) (this : Material) (w : World) :
  let '(this', w') := blendType_set pc type this w in
  (quadruple this' = quadruple this \/ exists p, quadruple this' = spec_row pc p) /\
  same_outside_blend this this' /\
  next_id w' = next_id w /\ mesh_shader w' = mesh_shader w /\
  global_i w' = global_i w.
Proof.
  rewrite blendType_set_eq. simpl.
  split; [|split; [apply same_outside_switch|done]].
  destruct (blendType_switch_cases type this) as [[_ ->]|(p & _ & ->)].
  - by left.
  - right. exists p. by destruct (spec_row pc p) as [[[b src] dst] eqn].
Qed.

(** X4. A recognized preset written after any other value leaves the
    material that writing it alone leaves; the keys are refreshed by both
    writes. *)
Theorem blendType_set_last_write (t1 t2 : value) (this : Material) (w : World) :
  (exists p, t2 = VNum (preset_code pc p)) ->
  let '(this1, w1) := blendType_set pc t1 this w in
  let '(this2, w2) := blendType_set pc t2 this1 w1 in
  this2 = (blendType_set pc t2 this w).1 /\
  calls_since w w2
  = map EvUpdateKey (meshInstances this) ++ map EvUpdateKey (meshInstances this).
Proof.
  intros [p ->]. rewrite !blendType_set_eq. simpl.
  rewrite !meshInstances_switch. unfold calls_since. simpl.
  rewrite <- app_assoc, drop_app_length. split; [|done].
  destruct (blendType_switch_uniform (VNum (preset_code pc p)))
    as [[Hno _]|(b & src & dst & eqn & Hsw)]; [by destruct (Hno p)|].
  by rewrite !Hsw, assign_blend_switch.
Qed.

(** X5. Writing the same value twice leaves the material that writing it
    once leaves, for every value. *)
Theorem blendType_set_idempotent (type : value) (this : Material) (w : World) :
  let '(this1, w1) := blendType_set pc type this w in
  (blendType_set pc type this1 w1).1 = this1.
Proof.
  rewrite !blendType_set_eq. simpl.
  destruct (blendType_switch_uniform type)
    as [[_ Hid]|(b & src & dst & eqn & Hsw)].
  - by rewrite !Hid.
  - by rewrite !Hsw.
Qed.

(** X6. Writing back the blend type that was just read leaves a material
    that reads the same and whose four fields are a row of the table; it is
    the identity exactly on the materials whose fields already are a row,
    and moves every other material to the NORMAL row. *)
Theorem blendType_write_back (this : Material) (w : World) :
  presets_distinct pc ->
  blendmodes_distinct pc ->
  let this' := (blendType_set pc (VNum (blendType_get pc this)) this w).1 in
  blendType_get pc this' = blendType_get pc this /\
  (exists p, quadruple this' = spec_row pc p) /\
  (forall p, quadruple this = spec_row pc p -> this' = this) /\
  ((forall p, quadruple this <> spec_row pc p) ->
   quadruple this' = spec_row pc NORMAL).
Proof.
  intros Hp Hm. rewrite blendType_set_eq. simpl.
  assert (forall q, blendType_get pc this = preset_code pc q ->
            quadruple (blendType_switch pc (VNum (blendType_get pc this)) this)
            = spec_row pc q) as Hsw.
  { intros q ->. rewrite blendType_switch_preset by done.
    by destruct (spec_row pc q) as [[[b src] dst] eqn]. }
  destruct (blendType_get_cases this) as [(q & Hrow & Hq)|[Hno Hn]].
  - repeat split.
    + transitivity (preset_code pc q); [|done].
      apply blendType_get_row; [done|]. by apply Hsw.
    + exists q. by apply Hsw.
    + intros _ _. rewrite Hq, blendType_switch_preset by done.
      rewrite <- Hrow. destruct (quadruple this) as [[[b src] dst] eqn] eqn:Hquad.
      by apply assign_blend_id.
    + intros Habs. by destruct (Habs q).
  - repeat split.
    + transitivity (preset_code pc NORMAL); [|done].
      apply blendType_get_row; [done|]. by apply (Hsw NORMAL).
    + exists NORMAL. by apply (Hsw NORMAL).
    + intros p Hrow. by destruct (Hno p).
    + intros _. by apply (Hsw NORMAL).
Qed.

End BlendTypeView.

(** ** The parameter table as a map *)

Section ParameterTable.

Lemma parameters_set_parameters (T : gmap string ParamRecord) (this : Material) :
  parameters (set_parameters T this) = T.
Proof. reflexivity. Qed.

Lemma set_parameters_same (this : Material) :
  set_parameters (parameters this) this = this.
Proof. by destruct this. Qed.

Lemma deleteParameter_own (this : Material) (name : string) :
  JS.inherited name = false ->
  deleteParameter this (VStr name)
  = set_parameters (delete name (parameters this)) this.
Proof.
  intros Hk. unfold deleteParameter. simpl.
  rewrite lookup_parameter_own by done.
  destruct (parameters this !! name) eqn:Hold; simpl; [done|].
  by rewrite delete_id, set_parameters_same.
Qed.

(** X7. On a name that is no member of [Object.prototype],
    [deleteParameter] leaves no record at the name and touches no other
    name and no other field; on a name without a record it returns the
    material as it is, otherwise the table loses one entry.  The scope id
    is lost with the record: a parameter set again at the name starts with
    null. *)
Theorem deleteParameter_spec (this : Material) (name : string) (v : value) :
  JS.inherited name = false ->
  let this' := deleteParameter this (VStr name) in
  getParameter this' (VStr name) = None /\
  (forall k, k <> name -> parameters this' !! k = parameters this !! k) /\
  this' = set_parameters (parameters this') this /\
  match getParameter this (VStr name) with
  | None => this' = this
  | Some _ => size (parameters this) = S (size (parameters this'))
  end /\
  getParameter (store_parameter (VStr name) v this') (VStr name)
  = Some (Own {| scopeId := None; data := v |}).
Proof.
  intros Hk. simpl. rewrite getParameter_store by done.
  rewrite deleteParameter_own by done.
  unfold getParameter. simpl. rewrite !lookup_parameter_own by done. simpl.
  rewrite lookup_delete_eq. repeat split.
  - intros k Hk'. by rewrite lookup_delete_ne.
  - destruct (parameters this !! name) as [old|] eqn:Hold; simpl.
    + rewrite map_size_delete_Some by done.
      assert (size (parameters this) <> 0%nat); [|lia].
      intros Hz%map_size_empty_iff. by rewrite Hz, lookup_empty in Hold.
    + by rewrite delete_id, set_parameters_same.
Qed.


(** X9. Parameters set at two different names, neither of them a member
    of [Object.prototype], do not interfere: the two calls commute. *)
Theorem setParameter_commute (fuel : nat) (this : Material) (n1 n2 : string)
    (v1 v2 : value) :
  v1 <> VUndefined ->
  v2 <> VUndefined ->
  JS.inherited n1 = false ->
  JS.inherited n2 = false ->
  n1 <> n2 ->
  exists a b ab ba,
    setParameter (S fuel) this (VStr n1) v1 = Some (Returned a) /\
    setParameter (S fuel) a (VStr n2) v2 = Some (Returned ab) /\
    setParameter (S fuel) this (VStr n2) v2 = Some (Returned b) /\
    setParameter (S fuel) b (VStr n1) v1 = Some (Returned ba) /\
    ab = ba.
Proof.
  intros H1 H2 Hi1 Hi2 Hne. do 4 eexists.
  rewrite !setParameter_two_args by done. repeat split.
  rewrite !store_parameter_own by done. simpl.
  rewrite !lookup_insert_ne by done.
  by rewrite insert_insert_ne.
Qed.

End ParameterTable.

(** ** The single-argument overload of [setParameter] *)

Section Overload.

Lemma is_uniform_uniform_of (nv : value * value) : is_uniform (uniform_of nv).
Proof. eexists. split; reflexivity. Qed.

(** The loop over an array that starts with elements on which the call
    returns, followed by one on which it does not return normally. *)
Lemma setParameter_loop_array_stop (call : Material -> value -> option outcome)
    (f : Material -> value -> Material) (pre good : list value) (bad : value)
    (rest : list value) (n : nat) (this : Material) (res : option outcome) :
  Forall (fun e => forall m, call m e = Some (Returned (f m e))) good ->
  call (foldl f this good) bad = res ->
  (forall this', res <> Some (Returned this')) ->
  (length good < n)%nat ->
  setParameter_loop call (VArr (pre ++ good ++ bad :: rest)) n (length pre) this
  = res.
Proof.
  revert pre n this. induction good as [|e good IH]; intros pre n this Hall Hbad Hres Hn.
  - destruct n as [|n]; [simpl in Hn; lia|]. simpl in *.
    rewrite app_nth2, Nat.sub_diag by lia. simpl. rewrite Hbad.
    destruct res as [[this'|e this']|]; [by destruct (Hres this')|done|done].
  - destruct n as [|n]; [simpl in Hn; lia|].
    apply Forall_cons in Hall as [He Hall]. simpl in *.
    rewrite app_nth2, Nat.sub_diag by lia. simpl. rewrite He.
    specialize (IH (pre ++ [e]) n (f this e) Hall Hbad Hres).
    rewrite <- app_assoc, length_app, Nat.add_1_r in IH. apply IH. lia.
Qed.

Lemma setParameter_array_loop (fuel : nat) (this : Material) (l : list value) :
  l <> [] ->
  setParameter (S fuel) this (VArr l) VUndefined
  = setParameter_loop (fun this elem => setParameter fuel this elem VUndefined)
      (VArr l) (length l) 0 this.
Proof.
  intros Hne.
  rewrite (setParameter_one_arg_loop _ _ _ (VNum (Z.of_nat (length l))));
    [|done|by destruct l].
  unfold JS.loop_count. cbn [JS.to_number]. by rewrite Nat2Z.id.
Qed.


(** X10. Called with one uniform object whose [value] is defined, the
    method does what the two-argument call on its [name] and [value]
    does. *)
Theorem setParameter_object_delegates
    (fuel : nat) (this : Material) (props : list (string * value)) :
  JS.truthy (JS.own_prop props "length") = false ->
  JS.own_prop props "value" <> VUndefined ->
  setParameter (S fuel) this (VObj props) VUndefined
  = setParameter (S fuel) this (JS.own_prop props "name") (JS.own_prop props "value").
Proof.
  intros Hlen Hv.
  rewrite (setParameter_two_args fuel this (JS.own_prop props "name")
             (JS.own_prop props "value")) by done.
  by apply (setParameter_one_arg_store fuel this (VObj props)
              (JS.own_prop props "length")).
Qed.

(** X11. Called with one uniform object that has no [value] (or an
    undefined one) and whose [name] is a string that is no member of
    [Object.prototype], the method neither throws nor removes the
    parameter: it leaves a record at the name whose data is undefined, with
    the scope id the name had. *)
Theorem setParameter_object_without_value
    (fuel : nat) (this : Material) (props : list (string * value)) (n : string) :
  JS.truthy (JS.own_prop props "length") = false ->
  JS.own_prop props "value" = VUndefined ->
  JS.own_prop props "name" = VStr n ->
  JS.inherited n = false ->
  exists this',
    setParameter (S fuel) this (VObj props) VUndefined = Some (Returned this') /\
    getParameter this' (VStr n)
    = Some (Own {| scopeId := parameters this !! n ≫= scopeId;
                   data := VUndefined |}).
Proof.
  intros Hlen Hv Hn Hinh. eexists. split.
  - by apply (setParameter_one_arg_store fuel this (VObj props)
                (JS.own_prop props "length")).
  - rewrite Hv, Hn. by apply getParameter_store.
Qed.

Lemma foldl_store_named (l : list (string * value)) (this : Material) :
  foldl store_uniform this (uniform_of <$> (named <$> l))
  = foldl (fun m nv => store_parameter (VStr nv.1) nv.2 m) this l.
Proof.
  revert this. induction l as [|nv l IH]; intros this; [done|].
  simpl. by rewrite IH.
Qed.

(** X12. Called with a sequence of uniform objects whose names are strings
    that are no members of [Object.prototype], the method stores them one
    after the other in the order of the sequence, as two-argument calls
    would; the value that a name keeps is the one of its last element. *)
Theorem setParameter_sequence_order
    (fuel : nat) (this : Material) (l : list (string * value)) (n : string)
    (v : value) :
  Forall (fun nv => JS.inherited nv.1 = false) l ->
  JS.inherited n = false ->
  exists this' p,
    setParameter (S (S fuel)) this
      (VArr (uniform_of <$> (named <$> (l ++ [(n, v)])))) VUndefined
    = Some (Returned this') /\
    this' = store_parameter (VStr n) v
              (foldl (fun m nv => store_parameter (VStr nv.1) nv.2 m) this l) /\
    getParameter this' (VStr n) = Some (Own p) /\
    data p = v.
Proof.
  intros _ Hinh. do 2 eexists. split; [|split; [reflexivity|]].
  - rewrite setParameter_sequence.
    + by rewrite foldl_store_named, foldl_app.
    + rewrite !fmap_app. by destruct (uniform_of <$> (named <$> l)).
    + apply Forall_fmap, Forall_fmap, Forall_forall. intros nv _.
      apply is_uniform_uniform_of.
  - rewrite getParameter_store by done. done.
Qed.

(** X13. A sequence that holds [undefined] or [null] after some uniform
    objects, whose names are strings that are no members of
    [Object.prototype], makes the method throw a TypeError at that element;
    the parameters of the elements before it stay stored and the elements
    after it are not looked at. *)
Theorem setParameter_sequence_throws
    (fuel : nat) (this : Material) (l : list (string * value)) (bad : value)
    (rest : list value) :
  Forall (fun nv => JS.inherited nv.1 = false) l ->
  JS.get_prop bad "length" = None ->
  setParameter (S (S fuel)) this
    (VArr ((uniform_of <$> (named <$> l)) ++ bad :: rest)) VUndefined
  = Some (Threw TypeError
            (foldl (fun m nv => store_parameter (VStr nv.1) nv.2 m) this l)).
Proof.
  intros _ Hbad.
  rewrite setParameter_array_loop by (by destruct (uniform_of <$> (named <$> l))).
  rewrite <- foldl_store_named.
  apply (setParameter_loop_array_stop _ store_uniform []).
  - apply Forall_fmap, Forall_fmap, Forall_forall. intros nv _ m.
    apply setParameter_uniform, is_uniform_uniform_of.
  - simpl. by rewrite Hbad.
  - done.
  - rewrite length_app. simpl. lia.
Qed.


End Overload.

(** ** Pushing, updating and clearing *)

Section PushAndUpdate.

Variable resolve : string -> ScopeId.

(** A table none of whose records holds null has nothing to resolve. *)
Lemma filter_null_nil (T : gmap string ParamRecord) :
  (forall k p, T !! k = Some p -> scopeId p <> None) ->
  filter (fun e : string * ParamRecord => scopeId e.2 = None) (map_to_list T) = [].
Proof.
  intros HT.
  assert (Forall (fun e : string * ParamRecord => scopeId e.2 <> None)
            (map_to_list T)) as Hall.
  { apply Forall_forall. intros [k p] Hin%elem_of_map_to_list. by apply (HT k). }
  induction Hall as [|e l He _ IH]; [done|].
  by rewrite filter_cons_False.
Qed.

Lemma setValue_calls_entries (l : list (string * ParamRecord)) :
  setValue_calls (flat_map (entry_events resolve) l)
  = (fun e => (handle_of resolve e.1 e.2, data e.2)) <$> l.
Proof.
  induction l as [|[k p] l IH]; [done|].
  simpl. unfold setValue_calls in *. rewrite omap_app, IH.
  unfold entry_events. simpl. by destruct (scopeId p).
Qed.

Lemma setParameters_eq (this : Material) (w : World) :
  setParameters resolve this w =
  (set_parameters
     (foldl (fun T e => <[e.1 := pushed resolve e.1 e.2]> T) (parameters this)
        (map_to_list (parameters this))) this,
   {| next_id := next_id w; mesh_shader := mesh_shader w;
      global_i := global_i w;
      trace := trace w ++
               flat_map (entry_events resolve) (map_to_list (parameters this)) |}).
Proof. unfold setParameters. apply for_each_on_body. Qed.

(** X15. [setParameters] sets one value per entry of the table, keeps the
    names and the data of the table, and changes nothing else: no other
    field of the material, not the id counter, no shader slot. *)
Theorem setParameters_frame (this : Material) (w : World) :
  let '(this', w') := setParameters resolve this w in
  length (setValue_calls (calls_since w w')) = size (parameters this) /\
  dom (parameters this') = dom (parameters this) /\
  (forall k, data <$> parameters this' !! k = data <$> parameters this !! k) /\
  this' = set_parameters (parameters this') this /\
  next_id w' = next_id w /\ mesh_shader w' = mesh_shader w /\
  global_i w' = global_i w.
Proof.
  pose proof (parameters_setParameters resolve this w) as Hp.
  rewrite setParameters_eq in *. simpl in *.
  unfold calls_since. simpl. rewrite drop_app_length.
  rewrite setValue_calls_entries, length_fmap, length_map_to_list.
  repeat split.
  - apply set_eq. intros k. rewrite !elem_of_dom, Hp.
    by rewrite fmap_is_Some.
  - intros k. rewrite Hp. by destruct (parameters this !! k).
Qed.

(** X16. After a push, setting a value at a name that is no member of
    [Object.prototype] and pushing again resolves nothing when the name had
    a record, and the new name alone when it had none: values can change
    without a scope id being looked up again. *)
Theorem setParameters_after_update
    (fuel : nat) (this : Material) (w : World) (name : string) (v : value) :
  JS.inherited name = false ->
  v <> VUndefined ->
  let '(this1, w1) := setParameters resolve this w in
  exists this2,
    setParameter (S fuel) this1 (VStr name) v = Some (Returned this2) /\
    let '(this3, w3) := setParameters resolve this2 w1 in
    resolved_names (calls_since w1 w3)
    = match getParameter this (VStr name) with
      | Some _ => []
      | None => [name]
      end.
Proof.
  intros Hinh Hv.
  pose proof (parameters_setParameters resolve this w) as Hp.
  destruct (setParameters resolve this w) as [this1 w1]. simpl in Hp.
  exists (store_parameter (VStr name) v this1).
  split; [by apply setParameter_two_args|].
  pose proof (calls_setParameters resolve (store_parameter (VStr name) v this1) w1)
    as Hc.
  destruct (setParameters resolve (store_parameter (VStr name) v this1) w1)
    as [this3 w3].
  simpl in Hc. rewrite Hc, resolved_names_entries.
  rewrite store_parameter_own, parameters_set_parameters by done.
  unfold getParameter. rewrite lookup_parameter_own by done. simpl. rewrite Hp.
  destruct (parameters this !! name) as [old|] eqn:Hold; simpl.
  - rewrite filter_null_nil; [done|].
    intros k p. destruct (decide (k = name)) as [->|Hne].
    + rewrite lookup_insert_eq. by intros [= <-].
    + rewrite lookup_insert_ne, Hp by done.
      destruct (parameters this !! k); by intros [= <-].
  - assert (parameters this1 !! name = None) as Hnone
      by (by rewrite Hp, Hold).
    pose proof (map_to_list_insert (parameters this1) name
                  {| scopeId := None; data := v |} Hnone) as Hperm.
    apply (filter_Permutation (fun e : string * ParamRecord => scopeId e.2 = None))
      in Hperm.
    rewrite filter_cons_True in Hperm by done.
    rewrite (filter_null_pushed resolve (parameters this) (parameters this1) Hp)
      in Hperm.
    apply Permutation_singleton_r in Hperm. by rewrite Hperm.
Qed.

(** X17. [clearParameters] leaves a table without any record, so that a
    push makes no call at all; the scope ids are forgotten with the
    records: at a name that is no member of [Object.prototype] nothing is
    found, and a parameter set there afterwards starts with null. *)
Theorem clearParameters_forgets (this : Material) (w : World) (name : string)
    (v : value) :
  JS.inherited name = false ->
  let this' := clearParameters this in
  size (getParameters this') = 0%nat /\
  getParameter this' (VStr name) = None /\
  this' = set_parameters ∅ this /\
  setParameters resolve this' w = (this', w) /\
  getParameter (store_parameter (VStr name) v this') (VStr name)
  = Some (Own {| scopeId := None; data := v |}).
Proof.
  intros Hinh. simpl. rewrite getParameter_store by done.
  unfold clearParameters, getParameters, getParameter, setParameters. simpl.
  rewrite lookup_parameter_own by done. simpl.
  rewrite map_size_empty, lookup_empty, map_to_list_empty. simpl.
  repeat split.
Qed.

End PushAndUpdate.

(** ** Construction, cloning and the id counter *)

Section Construction.

Variable pc : Constants.
Variable resolve : string -> ScopeId.

Lemma clone_eq (this : Material) (w : World) :
  clone pc this w =
  ({| name := name this; id := next_id w + 1; shader := None; variants := ∅;
      parameters := ∅;
      alphaTest := alphaTest this;
      blend := blend this;
      blendSrc := blendSrc this;
      blendDst := blendDst this;
      blendEquation := blendEquation this;
      cull := cull this;
      depthTest := depthTest this; depthWrite := depthWrite this;
      redWrite := redWrite this; greenWrite := greenWrite this;
      blueWrite := blueWrite this; alphaWrite := alphaWrite this;
      meshInstances := [] |},
   {| next_id := next_id w + 1 + 1; mesh_shader := mesh_shader w;
      global_i := global_i w; trace := trace w |}).
Proof. reflexivity. Qed.

(** X18. A new material has the NONE row in its blend fields and reads as
    BLEND_NONE whatever the numbering of the constants; it takes the
    current value of the id counter and moves the counter by one. *)
Theorem Material_new_defaults (w : World) :
  let '(m, w') := Material_new pc w in
  quadruple m = spec_row pc NONE /\
  blendType_get pc m = BLEND_NONE pc /\
  id m = next_id w /\ next_id w' = next_id w + 1 /\
  trace w' = trace w.
Proof.
  unfold Material_new, bind, fresh_id, ret. simpl.
  repeat split. unfold blendType_get. simpl. by rewrite !Z.eqb_refl.
Qed.

(** X19. The clone reads the same blend type as its source.  Cloning calls
    no collaborator and touches no shader slot; as the clone is attached to
    no mesh instance and has no parameter, a blend-type write on it
    refreshes no key and a push of its parameters sets nothing. *)
Theorem clone_detached (this : Material) (w : World) (type : value) :
  let '(c, w') := clone pc this w in
  blendType_get pc c = blendType_get pc this /\
  trace w' = trace w /\ mesh_shader w' = mesh_shader w /\
  next_id w' = next_id w + 2 /\
  trace (blendType_set pc type c w').2 = trace w /\
  setParameters resolve c w' = (c, w').
Proof.
  rewrite clone_eq. split; [reflexivity|].
  rewrite blendType_set_eq, meshInstances_switch. simpl.
  rewrite app_nil_r. repeat split. lia.
Qed.

(** X20. Materials with distinct ids issued by the counter stay so when a
    material is constructed and when one of them is cloned: the new ids
    differ from each other and from all the ids in use. *)
Theorem ids_fresh_alloc (ms : list Material) (this : Material) (w : World) :
  ids_fresh w ms ->
  let '(m, w1) := Material_new pc w in
  let '(c, w2) := clone pc this w1 in
  ids_fresh w2 (c :: m :: ms).
Proof.
  intros [Hnd Hlt].
  unfold Material_new, bind, fresh_id, ret. cbn beta iota.
  rewrite clone_eq. simpl.
  assert (forall i, i ∈ id <$> ms -> i < next_id w) as Hin.
  { intros i (m & -> & Hm)%list_elem_of_fmap.
    rewrite Forall_forall in Hlt. by apply Hlt. }
  split.
  - simpl. repeat apply NoDup_cons_2; try done.
    + rewrite not_elem_of_cons. split; [lia|].
      intros Hi%Hin. lia.
    + intros Hi%Hin. lia.
  - repeat apply Forall_cons_2; simpl; try lia.
    eapply Forall_impl; [exact Hlt|]. simpl. intros m Hm. lia.
Qed.

(** X21. [clearVariants] calls no collaborator: it refreshes no key.  It
    changes the variant cache and no other field of the material, keeps
    the id counter, leaves
    the undeclared global [i] at the number of attached mesh instances, and
    running it again changes neither the material nor any shader slot. *)
Theorem clearVariants_frame (this : Material) (w : World) :
  let '(this1, w1) := clearVariants this w in
  let '(this2, w2) := clearVariants this1 w1 in
  trace w1 = trace w /\ next_id w1 = next_id w /\
  this1 = set_variants ∅ this /\
  global_i w1 = VNum (Z.of_nat (length (meshInstances this))) /\
  this2 = this1 /\
  (forall mi, mesh_shader w2 mi = mesh_shader w1 mi).
Proof.
  unfold clearVariants, bind, ret, set_global_i. simpl.
  pose proof (for_each_clear_shader (meshInstances this)
    {| next_id := next_id w; mesh_shader := mesh_shader w;
       global_i := VNum 0; trace := trace w |}) as H.
  destruct (for_each _ _ _) as [[] w1] eqn:E1. simpl in *.
  destruct H as (Hid & _ & Ht & Hs).
  pose proof (for_each_clear_shader (meshInstances this)
    {| next_id := next_id w1; mesh_shader := mesh_shader w1;
       global_i := VNum 0; trace := trace w1 |}) as H.
  destruct (for_each _ (meshInstances this) {| next_id := next_id w1 |})
    as [[] w2] eqn:E2. simpl in *.
  destruct H as (_ & _ & _ & Hs2).
  repeat split; try done.
  intros mi. rewrite Hs2, Hs. by case_bool_decide.
Qed.

End Construction.

(** ** What [setParameter] can change *)

Section OnlyParameters.

Lemma only_parameters_trans (m m' m'' : Material) :
  m' = set_parameters (parameters m') m ->
  m'' = set_parameters (parameters m'') m' ->
  m'' = set_parameters (parameters m'') m.
Proof. intros H1 H2. rewrite H2 at 1. by rewrite H1. Qed.

Lemma setParameter_loop_only_parameters
    (call : Material -> value -> option outcome) (uniformObject : value)
    (n i : nat) (this : Material) (out : outcome) :
  (forall m e o, call m e = Some o ->
     outcome_material o = set_parameters (parameters (outcome_material o)) m) ->
  setParameter_loop call uniformObject n i this = Some out ->
  outcome_material out = set_parameters (parameters (outcome_material out)) this.
Proof.
  intros Hcall. revert i this. induction n as [|n IH]; intros i this; simpl.
  - intros [= <-]. simpl. by rewrite set_parameters_id.
  - destruct (call this (JS.get_index uniformObject i)) as [[this'|e this']|] eqn:Hc;
      [|intros [= <-]; by apply (Hcall _ _ _ Hc)|done].
    intros Hloop. apply (only_parameters_trans this this').
    + by apply (Hcall _ _ _ Hc).
    + by apply (IH (S i)).
Qed.

(** X22. In whichever way a call of [setParameter] ends, by returning or
    by throwing, with one or two arguments, the material it leaves differs
    from the one it started on in the parameter table only. *)
Theorem setParameter_only_parameters
    (fuel : nat) (this : Material) (arg v : value) (out : outcome) :
  setParameter fuel this arg v = Some out ->
  outcome_material out = set_parameters (parameters (outcome_material out)) this.
Proof.
  revert this arg v out. induction fuel as [|fuel IH]; intros this arg v out; [done|].
  simpl.
  assert (forall n d, store_parameter n d this
            = set_parameters (parameters (store_parameter n d this)) this) as Hst.
  { intros n d. unfold store_parameter.
    destruct (lookup_parameter this (JS.to_string n)) as [[old|key]|]; simpl;
      by rewrite ?set_parameters_id. }
  destruct (JS.is_undefined v); [|intros [= <-]; apply Hst].
  destruct (JS.get_prop arg "length") as [len|];
    [|intros [= <-]; simpl; by rewrite set_parameters_id].
  destruct (JS.truthy len).
  - apply setParameter_loop_only_parameters. intros m e o. apply IH.
  - destruct (JS.get_prop arg "name"), (JS.get_prop arg "value");
      intros [= <-]; simpl; try apply Hst; by rewrite set_parameters_id.
Qed.

End OnlyParameters.

(** ** The further properties at concrete inputs *)

Lemma blendType_get_sound_witness :
  quadruple (set_blendDst 1 (set_blendSrc 1 sample_material))
  = spec_row sample_constants ADDITIVE.
Proof.
  apply (blendType_get_sound sample_constants ADDITIVE
           (set_blendDst 1 (set_blendSrc 1 sample_material))).
  - exact sample_presets_distinct.
  - discriminate.
  - reflexivity.
Defined.

(** NORMAL written after the unrecognized number 0. *)
Lemma blendType_set_last_write_witness :
  let '(this1, w1) :=
    blendType_set sample_constants (VNum 0) sample_material sample_world in
  let '(this2, w2) := blendType_set sample_constants (VNum 2) this1 w1 in
  this2 = (blendType_set sample_constants (VNum 2) sample_material sample_world).1 /\
  calls_since sample_world w2
  = map EvUpdateKey (meshInstances sample_material)
    ++ map EvUpdateKey (meshInstances sample_material).
Proof.
  apply (blendType_set_last_write sample_constants (VNum 0) (VNum 2)
           sample_material sample_world).
  exists NORMAL. reflexivity.
Defined.

(** The sample material has blending enabled with both factors ZERO: no row
    of the table, so that writing back what it reads moves it to NORMAL. *)
Lemma blendType_write_back_witness :
  let this' :=
    (blendType_set sample_constants
       (VNum (blendType_get sample_constants sample_material))
       sample_material sample_world).1 in
  blendType_get sample_constants this'
  = blendType_get sample_constants sample_material /\
  (exists p, quadruple this' = spec_row sample_constants p) /\
  (forall p, quadruple sample_material = spec_row sample_constants p ->
             this' = sample_material) /\
  ((forall p, quadruple sample_material <> spec_row sample_constants p) ->
   quadruple this' = spec_row sample_constants NORMAL).
Proof.
  apply (blendType_write_back sample_constants sample_material sample_world).
  - exact sample_presets_distinct.
  - exact sample_blendmodes_distinct.
Defined.


Lemma setParameter_commute_witness :
  exists a b ab ba,
    setParameter 1 sample_material (VStr "tint") (VNum 1) = Some (Returned a) /\
    setParameter 1 a (VStr "gloss") (VBool true) = Some (Returned ab) /\
    setParameter 1 sample_material (VStr "gloss") (VBool true) = Some (Returned b) /\
    setParameter 1 b (VStr "tint") (VNum 1) = Some (Returned ba) /\
    ab = ba.
Proof.
  apply (setParameter_commute 0 sample_material "tint" "gloss" (VNum 1)
           (VBool true)); [discriminate|discriminate|reflexivity|reflexivity|].
  discriminate.
Defined.

Lemma setParameter_object_delegates_witness :
  setParameter 1 sample_material
    (VObj [("name"%string, VStr "tint"); ("value"%string, VNum 3)]) VUndefined
  = setParameter 1 sample_material (VStr "tint") (VNum 3).
Proof.
  apply (setParameter_object_delegates 0 sample_material
           [("name"%string, VStr "tint"); ("value"%string, VNum 3)]).
  - reflexivity.
  - discriminate.
Defined.

(** [{ name: "opacity" }] on the sample material, where "opacity" holds the
    scope id 11. *)
Lemma setParameter_object_without_value_witness :
  exists this',
    setParameter 1 sample_material (VObj [("name"%string, VStr "opacity")]) VUndefined
    = Some (Returned this') /\
    getParameter this' (VStr "opacity")
    = Some (Own {| scopeId := parameters sample_material !! "opacity"%string ≫= scopeId;
                   data := VUndefined |}).
Proof.
  apply (setParameter_object_without_value 0 sample_material
           [("name"%string, VStr "opacity")] "opacity"); reflexivity.
Defined.

Lemma setParameter_sequence_order_witness :
  exists this' p,
    setParameter 2 sample_material
      (VArr (uniform_of <$> (named <$> ([("tint"%string, VNum 3)]
                                        ++ [("tint"%string, VNum 4)]))))
      VUndefined
    = Some (Returned this') /\
    this' = store_parameter (VStr "tint") (VNum 4)
              (foldl (fun m nv => store_parameter (VStr nv.1) nv.2 m)
                 sample_material [("tint"%string, VNum 3)]) /\
    getParameter this' (VStr "tint") = Some (Own p) /\
    data p = VNum 4.
Proof.
  apply (setParameter_sequence_order 0 sample_material [("tint"%string, VNum 3)]
           "tint" (VNum 4)).
  - apply Forall_singleton. reflexivity.
  - reflexivity.
Defined.

Lemma setParameter_sequence_throws_witness :
  setParameter 2 sample_material
    (VArr ((uniform_of <$> (named <$> [("tint"%string, VNum 3)]))
           ++ VNull :: [VNum 1])) VUndefined
  = Some (Threw TypeError
            (foldl (fun m nv => store_parameter (VStr nv.1) nv.2 m) sample_material
               [("tint"%string, VNum 3)])).
Proof.
  apply (setParameter_sequence_throws 0 sample_material [("tint"%string, VNum 3)]
           VNull [VNum 1]).
  - apply Forall_singleton. reflexivity.
  - reflexivity.
Defined.

Lemma setParameters_after_update_witness :
  let '(this1, w1) := setParameters String.length sample_material sample_world in
  exists this2,
    setParameter 1 this1 (VStr "gloss") (VNum 5) = Some (Returned this2) /\
    let '(this3, w3) := setParameters String.length this2 w1 in
    resolved_names (calls_since w1 w3)
    = match getParameter sample_material (VStr "gloss") with
      | Some _ => []
      | None => ["gloss"%string]
      end.
Proof.
  apply (setParameters_after_update String.length 0 sample_material sample_world
           "gloss" (VNum 5)).
  - reflexivity.
  - discriminate.
Defined.

Lemma deleteParameter_spec_witness :
  let this' := deleteParameter sample_material (VStr "opacity") in
  getParameter this' (VStr "opacity") = None /\
  (forall k, k <> "opacity"%string ->
             parameters this' !! k = parameters sample_material !! k) /\
  this' = set_parameters (parameters this') sample_material /\
  match getParameter sample_material (VStr "opacity") with
  | None => this' = sample_material
  | Some _ => size (parameters sample_material) = S (size (parameters this'))
  end /\
  getParameter (store_parameter (VStr "opacity") (VNum 2) this') (VStr "opacity")
  = Some (Own {| scopeId := None; data := VNum 2 |}).
Proof.
  apply (deleteParameter_spec sample_material "opacity" (VNum 2)).
  reflexivity.
Defined.

Lemma clearParameters_forgets_witness :
  let this' := clearParameters sample_material in
  size (getParameters this') = 0%nat /\
  getParameter this' (VStr "opacity") = None /\
  this' = set_parameters ∅ sample_material /\
  setParameters String.length this' sample_world = (this', sample_world) /\
  getParameter (store_parameter (VStr "opacity") (VNum 2) this') (VStr "opacity")
  = Some (Own {| scopeId := None; data := VNum 2 |}).
Proof.
  apply (clearParameters_forgets String.length sample_material sample_world
           "opacity" (VNum 2)).
  reflexivity.
Defined.

Lemma sample_ids_fresh : ids_fresh sample_world [sample_material].
Proof.
  split.
  - apply NoDup_singleton.
  - apply Forall_singleton. reflexivity.
Defined.

Lemma ids_fresh_alloc_witness :
  let '(m, w1) := Material_new sample_constants sample_world in
  let '(c, w2) := clone sample_constants sample_material w1 in
  ids_fresh w2 (c :: m :: [sample_material]).
Proof.
  apply (ids_fresh_alloc sample_constants [sample_material] sample_material
           sample_world).
  exact sample_ids_fresh.
Defined.

(** A call that throws after it stored one parameter. *)
Lemma setParameter_only_parameters_witness :
  outcome_material
    (Threw TypeError (store_parameter (VStr "tint") (VNum 3) sample_material))
  = set_parameters
      (parameters
         (outcome_material
            (Threw TypeError (store_parameter (VStr "tint") (VNum 3) sample_material))))
      sample_material.
Proof.
  apply (setParameter_only_parameters 2 sample_material
           (VArr [uniform_of (VStr "tint", VNum 3); VUndefined]) VUndefined).
  reflexivity.
Defined.

(** Numbers print as JavaScript prints them: in decimal below 2^53, by
    their shortest digits beyond, with an exponent from 10^21 on. *)
Example to_string_numbers :
  JS.to_string (VNum 42) = "42"%string /\
  JS.to_string (VNum (-7)) = "-7"%string /\
  JS.to_string (VNum (2 ^ 60)) = "1152921504606847000"%string /\
  JS.to_string (VNum (10 ^ 21)) = "1e+21"%string /\
  JS.to_string (VNum (2 ^ 70)) = "1.1805916207174113e+21"%string /\
  JS.to_string (VArr [VNum 1; VNull; VStr "a"]) = "1,,a"%string.
Proof. vm_compute. repeat split. Qed.

(** The number 10^21 and the string "1e+21" name the same parameter. *)
Example setParameter_same_key :
  store_parameter (VNum (10 ^ 21)) (VNum 1) sample_material
  = store_parameter (VStr "1e+21") (VNum 1) sample_material.
Proof. vm_compute. reflexivity. Qed.

(** What the table answers at an inherited name, at a name with a record
    and at an unknown name. *)
Example getParameter_sample :
  getParameter sample_material (VStr "toString") = Some (FromPrototype "toString") /\
  getParameter sample_material (VStr "opacity")
  = Some (Own {| scopeId := Some 11%nat; data := VNum 1 |}) /\
  getParameter sample_material (VStr "gloss") = None.
Proof. vm_compute. repeat split. Qed.
